(** * LCARS system monitor: the resilience pipeline

  A shallow embedding of the five core files of the monitor,

  - [src/server/adapters/withTimeout.js]            (module [Timeout]),
  - [src/server/repositories/MetricsRepository.js]  (module [Repository]),
  - [src/server/services/SystemMonitorService.js]   (module [Service]),
  - [src/server/http/sseManager.js]                 (module [Manager]),
  - [src/client/js/sseClient.js]                    (module [Client]),

  followed by the properties proved about them.

  Conventions.  JavaScript numbers that the code only counts, compares or
  doubles (milliseconds, retry counts, timestamps) are integers and are
  modelled by [Z] or [nat].  Objects whose set of keys is fixed by the code
  are records or finite enumerations.  Every mutable field of a class
  becomes a field of a state record that the methods thread explicitly; the
  part of the JavaScript environment a method acts on (timers, transports,
  response streams) is carried in the same record, so that "which timers
  are alive" is a statement about the state. *)

From stdpp Require Import base list sorting strings pretty.
From Stdlib Require Import ZArith Lia Sorting.Sorted Sorting.Permutation.

Local Open Scope Z_scope.
Set Warnings "-register-all".

(* ===================================================================== *)
(** * JavaScript values *)
(* ===================================================================== *)

Module Js.

(** The values that travel through the pipeline.  Collectors hand back
    plain data (objects, arrays, numbers, strings), [null] or
    [undefined]. *)
Inductive JsValue :=
| JNull
| JUndefined
| JBool (b : bool)
| JNum (n : Z)
| JStr (s : string)
| JArr (items : list JsValue)
| JObj (fields : list (string * JsValue)).

(** [v === null || v === undefined] *)
Definition is_nullish (v : JsValue) : bool :=
  match v with
  | JNull | JUndefined => true
  | _ => false
  end.

(** [a ?? b] *)
Definition nullish_or (a b : JsValue) : JsValue :=
  if is_nullish a then b else a.

(** Lookup of an own property in the field list of an object literal. *)
Fixpoint assoc {A} (name : string) (fields : list (string * A)) : option A :=
  match fields with
  | [] => None
  | (k, v) :: rest => if String.eqb k name then Some v else assoc name rest
  end.

(** What a statement can do: complete normally, or throw. *)
Inductive Completion (A : Type) :=
| Normal (a : A)
| Throw (what : string).
Arguments Normal {A} a.
Arguments Throw {A} what.

(** [v.name]: a [TypeError] on [null] and [undefined], [undefined] when the
    property is missing or [v] is a primitive. *)
Definition get_prop (v : JsValue) (name : string) : Completion JsValue :=
  match v with
  | JNull | JUndefined => Throw "TypeError"
  | JObj fields => Normal (default JUndefined (assoc name fields))
  | _ => Normal JUndefined
  end.

(** [s.includes(sub)] on strings. *)
Fixpoint includes (s sub : string) : bool :=
  if String.prefix sub s then true
  else match s with
       | EmptyString => false
       | String _ rest => includes rest sub
       end.

(** The line feed of the [\n] escapes. *)
Definition LF : string := String (Ascii.ascii_of_nat 10) EmptyString.

(** Rejection reasons.  Everything the code reads off a reason is
    [reason?.message]; an [Error] object carries a string there, any other
    thrown value (a primitive, [null], an object without [message]) yields
    [undefined].  Reasons whose [message] is present but not a string are
    left out. *)
Inductive Reason :=
| JsError (message : string)
| NoMessage (thrown : JsValue).

(** [reason?.message] *)
Definition reason_message (r : Reason) : option string :=
  match r with
  | JsError m => Some m
  | NoMessage _ => None
  end.

(** How a promise ends. *)
Inductive Settlement :=
| Fulfilled (value : JsValue)
| Rejected (reason : Reason).

(** A promise, seen from the moment it is handed to the code under study:
    it settles [t] milliseconds later with a given outcome, or it never
    settles.  [t <= 0] is a promise that is settled already. *)
Inductive Promise :=
| Pending
| SettlesAt (t : Z) (how : Settlement).

(** [Promise.race] of two promises: the one that settles first decides;
    when both are settled at the same instant the reaction of the one
    listed first has been queued first. *)
Definition race2 (p q : Promise) : Promise :=
  match p, q with
  | Pending, _ => q
  | _, Pending => p
  | SettlesAt t1 _, SettlesAt t2 _ => if t1 <=? t2 then p else q
  end.

(** [Promise.race(ps)] *)
Definition Promise_race (ps : list Promise) : Promise :=
  foldr race2 Pending ps.

(** [Promise.allSettled(ps)]: completes once every promise has settled,
    with the settlements in the order of [ps]; it never rejects, and it
    never completes if one of the promises stays pending. *)
Fixpoint Promise_allSettled (ps : list Promise) : option (list Settlement) :=
  match ps with
  | [] => Some []
  | Pending :: _ => None
  | SettlesAt _ how :: rest =>
      match Promise_allSettled rest with
      | Some hows => Some (how :: hows)
      | None => None
      end
  end.

End Js.

Import Js.

(* ===================================================================== *)
(** * withTimeout.js *)
(* ===================================================================== *)

Module Timeout.

(** The delay [setTimeout(f, ms)] really uses: Node replaces a delay below
    1 or above 2^31-1 by 1. *)
Definition timerDelay (ms : Z) : Z :=
  if (ms <? 1) || (2147483647 <? ms) then 1 else ms.

(** [new Error(`Timeout: operation exceeded ${ms}ms`)] *)
Definition timeoutMessage (ms : Z) : string :=
  "Timeout: operation exceeded " +:+ pretty ms +:+ "ms".

Definition timeoutError (ms : Z) : Reason := JsError (timeoutMessage ms).

(** The promise whose executor arms the timer. *)
Definition timeoutPromise (ms : Z) : Promise :=
  SettlesAt (timerDelay ms) (Rejected (timeoutError ms)).

(** [p.finally(() => clearTimeout(timeoutId))]: the callback returns
    normally, so the settlement of [p] is passed on as it is. *)
Definition finally_clearTimeout (p : Promise) : Promise := p.

Definition withTimeout (promise : Promise) (ms : Z) : Promise :=
  finally_clearTimeout (Promise_race [promise; timeoutPromise ms]).

End Timeout.


(* ===================================================================== *)
(** * MetricsRepository.js *)
(* ===================================================================== *)

Module Repository.
Import Timeout.

(** The keys of [collectors], of [_lastKnown] and of the returned object. *)
Inductive MetricKey := cpu | memory | disk | processes | network | systemInfo.

#[export] Instance MetricKey_eq_dec : EqDecision MetricKey.
Proof. solve_decision. Defined.

(** [Object.keys(collectors)], in the order the literal lists them. *)
Definition keys : list MetricKey :=
  [cpu; memory; disk; processes; network; systemInfo].

(** The key as the string the template literal interpolates. *)
Definition keyName (k : MetricKey) : string :=
  match k with
  | cpu => "cpu"
  | memory => "memory"
  | disk => "disk"
  | processes => "processes"
  | network => "network"
  | systemInfo => "systemInfo"
  end.

(** The three per-metric statuses the repository writes. *)
Inductive MetricStatus := ok | degraded | unavailable.

#[export] Instance MetricStatus_eq_dec : EqDecision MetricStatus.
Proof. solve_decision. Defined.

(** [{ status, data, error }]; the [ok] literal has no [error] property. *)
Record MetricResult := mkResult {
  status : MetricStatus;
  data : JsValue;
  error : option string;
}.

(** An object keyed by metric key: [_lastKnown], and [metrics] as it is
    filled. *)
Definition Keyed (A : Type) := MetricKey -> A.

Definition put {A} (k : MetricKey) (a : A) (o : Keyed A) : Keyed A :=
  fun k' => if decide (k' = k) then a else o k'.

(** [this._lastKnown] *)
Definition Store := Keyed JsValue.

(** The constructor's [_lastKnown]: every key [null]. *)
Definition initialStore : Store := fun _ => JNull.

(** [metrics]: a key is absent until the loop assigns it. *)
Definition Metrics := Keyed (option MetricResult).

(** [const metrics = {}] *)
Definition emptyMetrics : Metrics := fun _ => None.

(** What the adapters' methods return in one cycle: one promise per key
    (the methods are [async], so a failure inside one is a rejection of its
    promise). *)
Definition Collectors := Keyed Promise.

(** [result.reason?.message?.includes('Timeout')], as the condition of the
    conditional: [undefined] counts as false. *)
Definition isTimeout (reason : Reason) : bool :=
  match reason_message reason with
  | Some m => includes m "Timeout"
  | None => false
  end.

(** [result.reason?.message || 'Unknown error']: the empty string is falsy
    as well. *)
Definition errorText (reason : Reason) : string :=
  match reason_message reason with
  | Some m => if String.eqb m "" then "Unknown error" else m
  | None => "Unknown error"
  end.

(** The body of the [for] loop for one key and its settled result. *)
Definition classify (key : MetricKey) (result : Settlement)
    (acc : Metrics * Store) : Metrics * Store :=
  let '(metrics, lastKnown) := acc in
  match result with
  | Fulfilled value =>
      if negb (is_nullish value) then
        (put key (Some (mkResult ok value None)) metrics,
         put key value lastKnown)
      else
        (put key (Some (mkResult unavailable
                          (nullish_or (lastKnown key) JNull)
                          (Some (keyName key +:+ " returned null"))))
             metrics,
         lastKnown)
  | Rejected reason =>
      (put key (Some (mkResult (if isTimeout reason then degraded else unavailable)
                        (nullish_or (lastKnown key) JNull)
                        (Some (errorText reason))))
           metrics,
       lastKnown)
  end.

(** The loop [for (let i = 0; i < keys.length; i++)]: [results[i]] is the
    settlement of the promise built from [keys[i]]. *)
Fixpoint collectLoop (ks : list MetricKey) (results : list Settlement)
    (acc : Metrics * Store) : Metrics * Store :=
  match ks, results with
  | key :: ks', result :: results' =>
      collectLoop ks' results' (classify key result acc)
  | _, _ => acc
  end.

(** [getSystemMetrics()].  [None] means that the [await] never resumes;
    otherwise the returned object and the store left behind. *)
Definition getSystemMetrics (collectors : Collectors) (lastKnown : Store)
    : option (Metrics * Store) :=
  match Promise_allSettled (map (fun key => withTimeout (collectors key) 1000) keys) with
  | Some results => Some (collectLoop keys results (emptyMetrics, lastKnown))
  | None => None
  end.

(** Successive cycles of one repository object: the results of each cycle
    (oldest first) and the store at the end. *)
Fixpoint cycles (inputs : list Collectors) (lastKnown : Store)
    : option (list Metrics * Store) :=
  match inputs with
  | [] => Some ([], lastKnown)
  | c :: rest =>
      match getSystemMetrics c lastKnown with
      | Some (m, lastKnown') =>
          match cycles rest lastKnown' with
          | Some (ms, final) => Some (m :: ms, final)
          | None => None
          end
      | None => None
      end
  end.

End Repository.

(* ===================================================================== *)
(** * SystemMonitorService.js *)
(* ===================================================================== *)

Module Service.
Import Repository.

Definition HISTORY_SIZE : nat := 60.

(** One slot of the ring: [{ cpu, memory, timestamp }]. *)
Record HistorySample := mkSample {
  sample_cpu : JsValue;
  sample_memory : JsValue;
  timestamp : Z;
}.

(** The fields of the service object.  [None] is the [null] a slot is
    filled with by the constructor. *)
Record Service := mkService {
  _history : list (option HistorySample);
  _historyIndex : nat;
}.

(** [new Array(HISTORY_SIZE).fill(null)], [_historyIndex = 0] *)
Definition initial : Service :=
  mkService (replicate HISTORY_SIZE None) 0.

(** The status of the whole system. *)
Inductive GlobalStatus := GlobalOk | GlobalCritical | GlobalDegraded.

Definition globalName (g : GlobalStatus) : string :=
  match g with
  | GlobalOk => "ok"
  | GlobalCritical => "critical"
  | GlobalDegraded => "degraded"
  end.

Definition statusName (s : MetricStatus) : string :=
  match s with
  | ok => "ok"
  | degraded => "degraded"
  | unavailable => "unavailable"
  end.

(** [_computeGlobalStatus(statuses)] *)
Definition _computeGlobalStatus (statuses : list MetricStatus) : GlobalStatus :=
  let allOk := forallb (fun s => bool_decide (s = ok)) statuses in
  if allOk then GlobalOk
  else
    let allUnavailable := forallb (fun s => bool_decide (s = unavailable)) statuses in
    if allUnavailable then GlobalCritical
    else GlobalDegraded.

(** Insertion of [x] into a list sorted by timestamp, after the elements
    that are strictly older and before the others. *)
Fixpoint insertByTimestamp (x : HistorySample) (l : list HistorySample)
    : list HistorySample :=
  match l with
  | [] => [x]
  | y :: rest =>
      if timestamp x <=? timestamp y then x :: y :: rest
      else y :: insertByTimestamp x rest
  end.

(** [xs.sort((a, b) => a.timestamp - b.timestamp)].  [Array.prototype.sort]
    is stable: elements that compare equal keep their relative order, which
    is what inserting from the right, each element before its equals,
    produces. *)
Definition sortByTimestamp (xs : list HistorySample) : list HistorySample :=
  foldr insertByTimestamp [] xs.

(** [xs.filter(Boolean)]: the [null] slots are dropped. *)
Definition filterBoolean (slots : list (option HistorySample)) : list HistorySample :=
  omap id slots.

(** [getHistory()] *)
Definition getHistory (svc : Service) : list HistorySample :=
  sortByTimestamp (filterBoolean (_history svc)).

(** The values of the properties of the returned object literal. *)
Inductive SnapshotValue :=
| SvTimestamp (t : Z)
| SvStatus (g : GlobalStatus)
| SvMetric (r : MetricResult)
| SvHistory (h : list HistorySample).

(** The returned object: its properties in the order of the literal. *)
Definition Snapshot := list (string * SnapshotValue).

(** [metrics[k]] followed by a property read: a [TypeError] when the key
    is absent. *)
Definition metricOf (metrics : Metrics) (k : MetricKey) : Completion MetricResult :=
  match metrics k with
  | Some r => Normal r
  | None => Throw "TypeError"
  end.

(** [metrics.k.status === 'ok' ? metrics.k.data.field : null] *)
Definition okField (metrics : Metrics) (k : MetricKey) (field : string)
    : Completion JsValue :=
  match metricOf metrics k with
  | Throw e => Throw e
  | Normal r =>
      if bool_decide (status r = ok) then get_prop (data r) field
      else Normal JNull
  end.

(** The push to the ring buffer:
    [this._history[this._historyIndex % HISTORY_SIZE] = sample;
     this._historyIndex++]. *)
Definition pushSample (sample : HistorySample) (svc : Service) : Service :=
  mkService
    (<[ (_historyIndex svc mod HISTORY_SIZE)%nat := Some sample ]> (_history svc))
    (S (_historyIndex svc)).

(** The part of [getCurrentMetrics()] after the [await]: [metrics] is what
    the repository returned and [now] is [Date.now()].  The service is
    returned in both cases, because the ring is written before the later
    statements can throw. *)
Definition getCurrentMetrics (metrics : Metrics) (now : Z) (svc : Service)
    : Completion Snapshot * Service :=
  match okField metrics cpu "usage" with
  | Throw e => (Throw e, svc)
  | Normal cpuUsage =>
  match okField metrics memory "percentage" with
  | Throw e => (Throw e, svc)
  | Normal memPercentage =>
      let svc' := pushSample (mkSample cpuUsage memPercentage now) svc in
      (* the [map] over the four primary keys reads [metrics[k].status]
         of each; the literal then stores the same four results *)
      match metricOf metrics cpu, metricOf metrics memory,
            metricOf metrics disk, metricOf metrics processes with
      | Normal c, Normal m, Normal d, Normal p =>
          let statuses := map status [c; m; d; p] in
          let globalStatus := _computeGlobalStatus statuses in
          (Normal [ ("timestamp", SvTimestamp now);
                    ("status", SvStatus globalStatus);
                    ("cpu", SvMetric c);
                    ("memory", SvMetric m);
                    ("disk", SvMetric d);
                    ("processes", SvMetric p);
                    ("history", SvHistory (getHistory svc')) ],
           svc')
      | _, _, _, _ => (Throw "TypeError", svc')
      end
  end
  end.

(** One collection cycle end to end: the repository's [getSystemMetrics],
    then the rest of [getCurrentMetrics].  [None]: the [await] never
    resumes. *)
Definition cycle (collectors : Collectors) (now : Z) (st : Store * Service)
    : option (Completion Snapshot * (Store * Service)) :=
  match getSystemMetrics collectors (fst st) with
  | None => None
  | Some (metrics, lastKnown') =>
      let '(r, svc') := getCurrentMetrics metrics now (snd st) in
      Some (r, (lastKnown', svc'))
  end.

End Service.

(* ===================================================================== *)
(** * sseManager.js *)
(* ===================================================================== *)

Module Manager.

(** A response object, by identity. *)
Definition Res := nat.

(** The handle [setInterval] returns. *)
Definition IntervalId := nat.

(** One call [client.write(payload)] and whether it returned. *)
Record WriteCall := mkWrite {
  write_to : Res;
  write_payload : string;
  write_returned : bool;
}.

(** The fields of the manager, and the part of the environment it acts
    on: [_clients] is the [Set], kept in insertion order as a [Set]
    iterates; [intervals] are the interval timers that are armed;
    [nextInterval] is the next fresh handle; [listeners] are the responses
    that carry the ['close'] listener of [addClient] and have not emitted
    the event yet; [writeLog] logs the [write] calls, oldest first. *)
Record Manager := mkManager {
  _clients : list Res;
  _heartbeatInterval : option IntervalId;
  intervals : list IntervalId;
  nextInterval : IntervalId;
  listeners : list Res;
  writeLog : list WriteCall;
}.

(** The constructor: an empty [Set], no interval. *)
Definition initial : Manager := mkManager [] None [] 0%nat [] [].

(** [set.add(x)] *)
Definition Set_add (x : Res) (s : list Res) : list Res :=
  if bool_decide (x ∈ s) then s else s ++ [x].

(** [set.delete(x)] *)
Definition Set_delete (x : Res) (s : list Res) : list Res :=
  List.filter (fun y => negb (bool_decide (y = x))) s.

Definition with_clients (cs : list Res) (m : Manager) : Manager :=
  mkManager cs (_heartbeatInterval m) (intervals m) (nextInterval m)
            (listeners m) (writeLog m).

(** [_startHeartbeat()]: the handle of a new interval is stored, whatever
    the field held. *)
Definition _startHeartbeat (m : Manager) : Manager :=
  mkManager (_clients m) (Some (nextInterval m))
            (intervals m ++ [nextInterval m]) (S (nextInterval m))
            (listeners m) (writeLog m).

(** [_stopHeartbeat()] *)
Definition _stopHeartbeat (m : Manager) : Manager :=
  match _heartbeatInterval m with
  | Some id =>
      mkManager (_clients m) None
                (List.filter (fun i => negb (bool_decide (i = id))) (intervals m))
                (nextInterval m) (listeners m) (writeLog m)
  | None => m
  end.

(** [addClient(res)] *)
Definition addClient (res : Res) (m : Manager) : Manager :=
  let m1 := mkManager (Set_add res (_clients m)) (_heartbeatInterval m)
                      (intervals m) (nextInterval m)
                      (res :: listeners m) (writeLog m) in
  if bool_decide (length (_clients m1) = 1%nat) then _startHeartbeat m1 else m1.

(** The listener [addClient] registers for the ['close'] event of [res]. *)
Definition onClose (res : Res) (m : Manager) : Manager :=
  let m1 := with_clients (Set_delete res (_clients m)) m in
  if bool_decide (length (_clients m1) = 0%nat) then _stopHeartbeat m1 else m1.

(** [client.write(payload)]: the call is logged, and it returns or it
    throws.  [throws client] tells whether this call throws. *)
Definition write (throws : Res -> bool) (client : Res) (payload : string)
    (m : Manager) : Manager * Completion unit :=
  (mkManager (_clients m) (_heartbeatInterval m) (intervals m)
             (nextInterval m) (listeners m)
             (writeLog m ++ [mkWrite client payload (negb (throws client))]),
   if throws client then Throw "write failed" else Normal tt).

(** [try { client.write(payload) } catch { this._clients.delete(client) }] *)
Definition writeOrEvict (payload : string) (throws : Res -> bool)
    (m : Manager) (client : Res) : Completion Manager :=
  let '(m1, outcome) := write throws client payload m in
  match outcome with
  | Normal _ => Normal m1
  | Throw _ => Normal (with_clients (Set_delete client (_clients m1)) m1)
  end.

(** [for (const x of xs) body]: a [Throw] of the body leaves the loop. *)
Fixpoint forOf {S A} (body : S -> A -> Completion S) (xs : list A) (s : S)
    : Completion S :=
  match xs with
  | [] => Normal s
  | x :: rest =>
      match body s x with
      | Normal s' => forOf body rest s'
      | Throw e => Throw e
      end
  end.

(** The loop over the [Set].  The iterator visits the entries present when
    it reaches them; the only deletion inside the loop removes the entry
    just visited, so the entries visited are those present at the start. *)
Definition forEachClient (payload : string) (throws : Res -> bool)
    (m : Manager) : Completion Manager :=
  forOf (writeOrEvict payload throws) (_clients m) m.

(** The callback of the heartbeat interval. *)
Definition heartbeat (throws : Res -> bool) (m : Manager) : Completion Manager :=
  forEachClient (":heartbeat" +:+ LF +:+ LF) throws m.

Section Broadcast.
(** The type of snapshots and [JSON.stringify] on it (snapshots are plain
    data, on which it returns a string). *)
Context {Data : Type} (JSON_stringify : Data -> string).

(** [`data: ${JSON.stringify(data)}\n\n`] *)
Definition payloadOf (d : Data) : string :=
  "data: " +:+ JSON_stringify d +:+ LF +:+ LF.

(** [broadcast(data)] *)
Definition broadcast (d : Data) (throws : Res -> bool) (m : Manager)
    : Completion Manager :=
  let payload := payloadOf d in
  forEachClient payload throws m.

(** What can happen to a manager: the two public methods, the ['close']
    event of a response, a tick of an armed interval. *)
Inductive Event :=
| AddClient (res : Res)
| Close (res : Res)
| Broadcast (d : Data) (throws : Res -> bool)
| Tick (throws : Res -> bool).

(** One event.  [None]: the event cannot happen in this state (no
    listener for the ['close'], no armed interval for the tick) or the
    handler throws. *)
Definition step (m : Manager) (e : Event) : option Manager :=
  match e with
  | AddClient res => Some (addClient res m)
  | Close res =>
      if bool_decide (res ∈ listeners m) then
        Some (onClose res
                (mkManager (_clients m) (_heartbeatInterval m) (intervals m)
                           (nextInterval m)
                           (List.filter (fun r => negb (bool_decide (r = res)))
                                        (listeners m))
                           (writeLog m)))
      else None
  | Broadcast d throws =>
      match broadcast d throws m with
      | Normal m' => Some m'
      | Throw _ => None
      end
  | Tick throws =>
      match intervals m with
      | [] => None
      | _ :: _ =>
          match heartbeat throws m with
          | Normal m' => Some m'
          | Throw _ => None
          end
      end
  end.

Fixpoint run (events : list Event) (m : Manager) : option Manager :=
  match events with
  | [] => Some m
  | e :: rest =>
      match step m e with
      | Some m' => run rest m'
      | None => None
      end
  end.

End Broadcast.

End Manager.

(* ===================================================================== *)
(** * sseClient.js *)
(* ===================================================================== *)

Module Client.

Definition MAX_RETRIES : nat := 10.
Definition MAX_BACKOFF : Z := 30000.
Definition INITIAL_BACKOFF : Z := 1000.

(** The argument of the status callback. *)
Inductive ConnStatus := connected | reconnecting | disconnected.

(** An [EventSource] object and a [setTimeout] handle, by identity.
    Browsers hand out non-zero timer handles, so a stored handle is
    truthy. *)
Definition SourceId := nat.
Definition TimerId := nat.

(** The fields of the client, and the part of the browser it acts on:
    [openSources] are the [EventSource] objects created and not closed,
    [pendingTimers] the armed timeouts with their delays, [nextId] the
    next fresh identity, [statusLog] the calls of the status callback,
    oldest first. *)
Record Client := mkClient {
  _eventSource : option SourceId;
  _retryCount : nat;
  _lastData : JsValue;
  _onStatus : bool;
  _backoff : Z;
  _reconnectTimeout : option TimerId;
  openSources : list SourceId;
  pendingTimers : list (TimerId * Z);
  nextId : nat;
  statusLog : list ConnStatus;
}.

(** The constructor. *)
Definition initial : Client :=
  mkClient None 0 JNull false INITIAL_BACKOFF None [] [] 1 [].

(** [this._onStatus?.(s)] *)
Definition notify (s : ConnStatus) (c : Client) : Client :=
  if _onStatus c then
    mkClient (_eventSource c) (_retryCount c) (_lastData c) (_onStatus c)
             (_backoff c) (_reconnectTimeout c) (openSources c)
             (pendingTimers c) (nextId c) (statusLog c ++ [s])
  else c.

(** [_close()] *)
Definition _close (c : Client) : Client :=
  let c1 :=
    match _eventSource c with
    | Some es =>
        mkClient None (_retryCount c) (_lastData c) (_onStatus c)
                 (_backoff c) (_reconnectTimeout c)
                 (List.filter (fun i => negb (bool_decide (i = es))) (openSources c))
                 (pendingTimers c) (nextId c) (statusLog c)
    | None => c
    end in
  match _reconnectTimeout c1 with
  | Some t =>
      mkClient (_eventSource c1) (_retryCount c1) (_lastData c1) (_onStatus c1)
               (_backoff c1) None (openSources c1)
               (List.filter (fun p => negb (bool_decide (fst p = t))) (pendingTimers c1))
               (nextId c1) (statusLog c1)
  | None => c1
  end.

(** [_open()]: close, report, create the [EventSource] (the three
    handlers it is given are [onopen], [onmessage], [onerror] below). *)
Definition _open (c : Client) : Client :=
  let c1 := notify reconnecting (_close c) in
  mkClient (Some (nextId c1)) (_retryCount c1) (_lastData c1) (_onStatus c1)
           (_backoff c1) (_reconnectTimeout c1)
           (openSources c1 ++ [nextId c1]) (pendingTimers c1)
           (S (nextId c1)) (statusLog c1).

(** [connect(onData, onStatus)]; [withStatus] tells whether a status
    callback is passed. *)
Definition connect (withStatus : bool) (c : Client) : Client :=
  _open (mkClient (_eventSource c) (_retryCount c) (_lastData c) withStatus
                  (_backoff c) (_reconnectTimeout c) (openSources c)
                  (pendingTimers c) (nextId c) (statusLog c)).

(** [reconnect()] *)
Definition reconnect (c : Client) : Client :=
  _open (mkClient (_eventSource c) 0 (_lastData c) (_onStatus c)
                  INITIAL_BACKOFF (_reconnectTimeout c) (openSources c)
                  (pendingTimers c) (nextId c) (statusLog c)).

(** The [onopen] handler. *)
Definition onopen (c : Client) : Client :=
  notify connected
    (mkClient (_eventSource c) 0 (_lastData c) (_onStatus c)
              INITIAL_BACKOFF (_reconnectTimeout c) (openSources c)
              (pendingTimers c) (nextId c) (statusLog c)).

(** The [onmessage] handler; [parsed] is the outcome of
    [JSON.parse(event.data)], [None] when it throws. *)
Definition onmessage (parsed : option JsValue) (c : Client) : Client :=
  match parsed with
  | Some d =>
      mkClient (_eventSource c) 0 d (_onStatus c)
               (_backoff c) (_reconnectTimeout c) (openSources c)
               (pendingTimers c) (nextId c) (statusLog c)
  | None => c
  end.

(** The [onerror] handler. *)
Definition onerror (c : Client) : Client :=
  let c1 := _close c in
  let c2 :=
    mkClient (_eventSource c1) (S (_retryCount c1)) (_lastData c1) (_onStatus c1)
             (_backoff c1) (_reconnectTimeout c1) (openSources c1)
             (pendingTimers c1) (nextId c1) (statusLog c1) in
  if bool_decide (MAX_RETRIES <= _retryCount c2)%nat then
    notify disconnected c2
  else
    let c3 := notify reconnecting c2 in
    mkClient (_eventSource c3) (_retryCount c3) (_lastData c3) (_onStatus c3)
             (Z.min (_backoff c3 * 2) MAX_BACKOFF)
             (Some (nextId c3)) (openSources c3)
             (pendingTimers c3 ++ [(nextId c3, _backoff c3)])
             (S (nextId c3)) (statusLog c3).

(** What can happen to a client: the two public methods, an event of an
    [EventSource], the expiry of a timeout. *)
Inductive Event :=
| Connect (withStatus : bool)
| Reconnect
| Open (es : SourceId)
| Message (es : SourceId) (parsed : option JsValue)
| Error (es : SourceId)
| TimerFires (t : TimerId).

(** One event.  [None]: the event cannot happen in this state.  Only an
    [EventSource] that has not been closed dispatches events, and only an
    armed timeout expires; an expired timeout is no longer armed when its
    callback [() => this._open()] runs. *)
Definition step (c : Client) (e : Event) : option Client :=
  match e with
  | Connect withStatus => Some (connect withStatus c)
  | Reconnect => Some (reconnect c)
  | Open es =>
      if bool_decide (es ∈ openSources c) then Some (onopen c) else None
  | Message es parsed =>
      if bool_decide (es ∈ openSources c) then Some (onmessage parsed c) else None
  | Error es =>
      if bool_decide (es ∈ openSources c) then Some (onerror c) else None
  | TimerFires t =>
      if bool_decide (t ∈ map fst (pendingTimers c)) then
        Some (_open
                (mkClient (_eventSource c) (_retryCount c) (_lastData c) (_onStatus c)
                          (_backoff c) (_reconnectTimeout c) (openSources c)
                          (List.filter (fun p => negb (bool_decide (fst p = t)))
                                       (pendingTimers c))
                          (nextId c) (statusLog c)))
      else None
  end.

Fixpoint run (events : list Event) (c : Client) : option Client :=
  match events with
  | [] => Some c
  | e :: rest =>
      match step c e with
      | Some c' => run rest c'
      | None => None
      end
  end.

(** The states a client can be in: those a run from the constructor's
    state leads to. *)
Definition reachable (c : Client) : Prop :=
  exists events, run events initial = Some c.

End Client.

(* ===================================================================== *)
(** * index.js and routes.js *)
(* ===================================================================== *)

Module Server.
Import Repository.

(** The objects of the composition root that carry state: the repository
    (its [_lastKnown]), the service, the manager. *)
Record Server := mkServer {
  repository : Store;
  service : Service.Service;
  sseManager : Manager.Manager;
}.

(** The composition root. *)
Definition start : Server :=
  mkServer initialStore Service.initial Manager.initial.





Section Streaming.
(** [JSON.stringify] on the object the service returns. *)
Context (JSON_stringify : Service.Snapshot -> string).

(** The synchronous part of the handler of [GET /metrics/stream]:
    [sseManager.addClient(res)]. *)
Definition streamOpen (res : Manager.Res) (s : Server) : Server :=
  mkServer (repository s) (service s) (Manager.addClient res (sseManager s)).

(** The rest of that handler, when [service.getCurrentMetrics()] has
    resolved: [try { res.write(...) } catch { }].  The outcome of the
    write is dropped.  A rejection of the service has no handler here and
    leaves the manager alone. *)
Definition streamThen (res : Manager.Res) (collectors : Collectors) (now : Z)
    (throws : Manager.Res -> bool) (s : Server) : option Server :=
  match Service.cycle collectors now (repository s, service s) with
  | None => None
  | Some (Normal metrics, (lk, svc)) =>
      let '(m, _) :=
        Manager.write throws res (Manager.payloadOf JSON_stringify metrics)
                      (sseManager s) in
      Some (mkServer lk svc m)
  | Some (Throw _, (lk, svc)) => Some (mkServer lk svc (sseManager s))
  end.


End Streaming.

End Server.

(* ===================================================================== *)
(** * NodeNativeAdapter.js *)
(* ===================================================================== *)

Module NodeNative.

(** [cpu.times] of one entry of [os.cpus()]: milliseconds spent in each
    mode, whole numbers. *)
Record CpuTimes := mkTimes {
  user : Z;
  nice : Z;
  sys : Z;
  idle : Z;
  irq : Z;
}.

(** [{ idle: idleTicks, total: totalTicks }] *)
Record Ticks := mkTicks {
  ticks_idle : Z;
  ticks_total : Z;
}.

(** The field of the adapter; [None] is the [null] of the constructor. *)
Record Adapter := mkAdapter {
  _prevCpuTicks : option Ticks;
}.

Definition initial : Adapter := mkAdapter None.

(** The loop over the cores, from [idleTicks = 0] and [totalTicks = 0]. *)
Definition sumTicks (cpus : list CpuTimes) : Ticks :=
  fold_left
    (fun acc cpu =>
       mkTicks (ticks_idle acc + idle cpu)
               (ticks_total acc + (user cpu + nice cpu + sys cpu + idle cpu + irq cpu)))
    cpus (mkTicks 0 0).

Section Usage.
(** [Math.round(((deltaTotal - deltaIdle) / deltaTotal) * 100 * 100) / 100]:
    the floating-point number the adapter reports for the two deltas. *)
Context (usagePercent : forall (deltaTotal deltaIdle : Z), JsValue).

(** [getCpuUsage()]: [cpus] is what [os.cpus()] returns at the call; the
    value the promise fulfils with, and the adapter afterwards. *)
Definition getCpuUsage (cpus : list CpuTimes) (a : Adapter) : JsValue * Adapter :=
  match cpus with
  | [] => (JNull, a)
  | _ =>
      let now := sumTicks cpus in
      let prev := _prevCpuTicks a in
      let a' := mkAdapter (Some now) in
      match prev with
      | None => (JNull, a')
      | Some prev =>
          let deltaTotal := ticks_total now - ticks_total prev in
          let deltaIdle := ticks_idle now - ticks_idle prev in
          if deltaTotal =? 0 then (JObj [("usage", JNum 0)], a')
          else (JObj [("usage", usagePercent deltaTotal deltaIdle)], a')
      end
  end.

(** Successive calls on one adapter: the adapter after them. *)
Definition afterReadings (readings : list (list CpuTimes)) (a : Adapter) : Adapter :=
  fold_left (fun a cpus => snd (getCpuUsage cpus a)) readings a.

(** The collectors of one cycle of the repository, whose [cpu] entry is
    [() => this.nodeAdapter.getCpuUsage()]: an [async] method without an
    [await], so its promise is fulfilled when it is handed over.  The other
    adapters' promises are [others]. *)
Definition collectors (cpus : list CpuTimes) (others : Repository.Collectors)
    (a : Adapter) : Repository.Collectors * Adapter :=
  let '(value, a') := getCpuUsage cpus a in
  (fun key =>
     match key with
     | Repository.cpu => SettlesAt 0 (Fulfilled value)
     | _ => others key
     end,
   a').

End Usage.

(** [getSystemInfo()], the formatted uptime: [uptimeSec] is [os.uptime()],
    in whole seconds.  [%] truncates, [Math.floor] of a quotient by a
    positive number is [/]. *)
Definition uptimeParts (uptimeSec : Z) : list string :=
  let days := uptimeSec / 86400 in
  let hours := Z.rem uptimeSec 86400 / 3600 in
  let minutes := Z.rem uptimeSec 3600 / 60 in
  (if 0 <? days then [pretty days +:+ "d"] else [])
    ++ [pretty hours +:+ "h"] ++ [pretty minutes +:+ "m"].

(** [parts.join(sep)] *)
Fixpoint join (sep : string) (parts : list string) : string :=
  match parts with
  | [] => ""
  | [p] => p
  | p :: rest => p +:+ sep +:+ join sep rest
  end.

Definition uptimeFormatted (uptimeSec : Z) : string :=
  join " " (uptimeParts uptimeSec).

End NodeNative.

(* ===================================================================== *)
(** * SystemInformationAdapter.js: the disk cache *)
(* ===================================================================== *)

Module SystemInformation.

Section Disks.
(** The floating-point numbers of [d.use], and
    [Math.round(x * 100) / 100] on them. *)
Context {Float : Type} (round2 : Float -> Float).

(** One entry of [si.fsSize()], with the fields the adapter reads. *)
Record FsSize := mkFsSize {
  fs : string;
  mount : string;
  type : string;
  size : Z;
  used : Z;
  available : Z;
  use : Float;
}.

(** One entry of the returned array. *)
Record Mounted := mkMounted {
  m_fs : string;
  m_mount : string;
  m_type : string;
  m_size : Z;
  m_used : Z;
  m_available : Z;
  m_percentage : Float;
}.

(** [this._diskCache]: [data] is [null] or an array. *)
Record DiskCache := mkCache {
  cache_data : option (list Mounted);
  cache_timestamp : Z;
}.

(** [{ data: null, timestamp: 0 }] *)
Definition initial : DiskCache := mkCache None 0.

(** [disks.filter((d) => d.size > 0).map(...)] *)
Definition mounted (disks : list FsSize) : list Mounted :=
  map (fun d => mkMounted (fs d) (mount d) (type d) (size d) (used d) (available d)
                          (round2 (use d)))
      (List.filter (fun d => 0 <? size d) disks).

(** [getDiskUsage()]: [now] is its [Date.now()], [fetched] what
    [await si.fsSize()] does if it is reached, an array or an exception.
    The result is [None] for [null].  An array is truthy, also an empty
    one. *)
Definition getDiskUsage (now : Z) (fetched : Completion (list FsSize))
    (cache : DiskCache) : option (list Mounted) * DiskCache :=
  match cache_data cache with
  | Some data =>
      if now - cache_timestamp cache <? 5000 then (Some data, cache)
      else
        match fetched with
        | Normal disks => (Some (mounted disks), mkCache (Some (mounted disks)) now)
        | Throw _ => (None, cache)
        end
  | None =>
      match fetched with
      | Normal disks => (Some (mounted disks), mkCache (Some (mounted disks)) now)
      | Throw _ => (None, cache)
      end
  end.

(** Successive calls on one adapter: what each returns, oldest first, and
    the cache at the end. *)
Fixpoint diskCalls (calls : list (Z * Completion (list FsSize))) (cache : DiskCache)
    : list (option (list Mounted)) * DiskCache :=
  match calls with
  | [] => ([], cache)
  | (now, fetched) :: rest =>
      let '(result, cache') := getDiskUsage now fetched cache in
      let '(results, final) := diskCalls rest cache' in
      (result :: results, final)
  end.

End Disks.

End SystemInformation.

(* ===================================================================== *)
(** * statusRenderer.js and main.js *)
(* ===================================================================== *)

Module View.
Import Client.

(** What [renderConnectionStatus] touches: the classes of the status dot,
    the text beside it, the classes of the reconnect banner. *)
Record StatusView := mkView {
  dotClasses : list string;
  statusText : string;
  bannerClasses : list string;
}.

(** [classList.add(c)] and [classList.remove(c)] *)
Definition classList_add (c : string) (classes : list string) : list string :=
  if bool_decide (c ∈ classes) then classes else classes ++ [c].

Definition classList_remove (c : string) (classes : list string) : list string :=
  List.filter (fun x => negb (String.eqb x c)) classes.

(** The constructor: dot and text are the page's elements as they are
    found; the banner is created with its one class. *)
Definition created (dot0 : list string) (text0 : string) : StatusView :=
  mkView dot0 text0 ["lcars-reconnect-banner"].

(** [renderConnectionStatus(status)] *)
Definition renderConnectionStatus (status : ConnStatus) (v : StatusView) : StatusView :=
  let dot := ["lcars-status-dot"] in
  match status with
  | connected =>
      mkView (classList_add "connected" dot) "ONLINE"
             (classList_remove "visible" (bannerClasses v))
  | reconnecting =>
      mkView (classList_add "reconnecting" dot) "RECONNECTING"
             (classList_remove "visible" (bannerClasses v))
  | disconnected =>
      mkView (classList_add "disconnected" dot) "DISCONNECTED"
             (classList_add "visible" (bannerClasses v))
  end.

(** main.js passes [renderConnectionStatus] as the status callback of its
    one [connect] call: the view is what the calls of the callback made of
    the created one. *)
Definition viewOf (dot0 : list string) (text0 : string) (c : Client) : StatusView :=
  fold_left (fun v status => renderConnectionStatus status v) (statusLog c)
            (created dot0 text0).

(** The getter [lastData] of the client. *)
Definition lastData (c : Client) : JsValue := _lastData c.

(** What happens to the client of main.js: its one [connect] with both
    callbacks, then events of the browser and clicks on the banner, which
    call [reconnect()]. *)
Definition mainRun (events : list Event) : option Client :=
  run (Connect true :: events) initial.

End View.

(* ===================================================================== *)
(** * Vocabulary of the properties *)
(* ===================================================================== *)

Module Spec.
Import Repository.

(** The settlement [Promise.allSettled] records for a guarded collector
    call. *)
Definition guarded (p : Promise) : Settlement :=
  match Timeout.withTimeout p 1000 with
  | SettlesAt _ how => how
  | Pending => Rejected (Timeout.timeoutError 1000)
  end.

(** What one pass of the loop body leaves at its own key: the result, and
    the new entry of the store. *)
Definition atKey (key : MetricKey) (result : Settlement) (old : JsValue)
    : MetricResult * JsValue :=
  let '(metrics, lastKnown) :=
    classify key result (emptyMetrics, fun _ => old) in
  (default (mkResult unavailable JNull None) (metrics key), lastKnown key).




(** The result stored under [k] by a call of [getSystemMetrics]. *)
Definition resultAt (k : MetricKey) (out : option (Metrics * Store))
    : option MetricResult :=
  match out with
  | Some (m, _) => m k
  | None => None
  end.

(** Example cycles.  [healthy]: every collector fulfils at 5ms with data
    of the shape its adapter returns. *)
Definition healthy : Collectors :=
  fun k =>
    SettlesAt 5
      (Fulfilled
         match k with
         | cpu => JObj [("usage", JNum 42)]
         | memory => JObj [("percentage", JNum 50)]
         | disk => JArr []
         | processes => JObj [("totalCount", JNum 100)]
         | network => JObj [("rxSec", JNum 1000); ("txSec", JNum 500)]
         | systemInfo => JObj [("hostname", JStr "test-host")]
         end).

(** [stuckCpu]: as [healthy], but the cpu collector never settles. *)
Definition stuckCpu : Collectors :=
  fun k => match k with cpu => Pending | _ => healthy k end.


(** The cycle of the service's own test: call number [i] reports cpu
    usage [i] and memory percentage [i]; every collector fulfils at once. *)
Definition numbered (i : nat) : Collectors :=
  fun k =>
    match k with
    | cpu => SettlesAt 0 (Fulfilled (JObj [("usage", JNum (Z.of_nat i))]))
    | memory => SettlesAt 0 (Fulfilled (JObj [("percentage", JNum (Z.of_nat i))]))
    | _ => SettlesAt 0 (Fulfilled (JArr []))
    end.

(** Successive calls of [getCurrentMetrics] on one service and its
    repository; each call comes with what the collectors do and with the
    value of [Date.now()].  The result is the list of what the calls
    returned and the state at the end, [None] if a call never returns. *)
Fixpoint calls (inputs : list (Collectors * Z)) (st : Store * Service.Service)
    : option (list (Completion Service.Snapshot) * (Store * Service.Service)) :=
  match inputs with
  | [] => Some ([], st)
  | (c, now) :: rest =>
      match Service.cycle c now st with
      | Some (r, st') =>
          match calls rest st' with
          | Some (rs, final) => Some (r :: rs, final)
          | None => None
          end
      | None => None
      end
  end.

(** The service after such calls, started from the constructors' state. *)
Definition serviceAfter (inputs : list (Collectors * Z)) : option Service.Service :=
  match calls inputs (initialStore, Service.initial) with
  | Some (_, (_, svc)) => Some svc
  | None => None
  end.

(** 65 calls numbered 1 to 65 that all read the same [Date.now()]. *)
Definition sameMillisecond : list (Collectors * Z) :=
  map (fun i => (numbered i, 1700000000000)) (seq 1 65).

(** 65 calls numbered 1 to 65, one millisecond apart. *)
Definition oneMillisecondApart : list (Collectors * Z) :=
  map (fun i => (numbered i, 1700000000000 + Z.of_nat i)) (seq 1 65).

(** Samples pushed one after the other, oldest first. *)
Definition pushAll (samples : list Service.HistorySample) (svc : Service.Service)
    : Service.Service :=
  fold_left (fun s x => Service.pushSample x s) samples svc.

(** [a] is not younger than [b], by the clock. *)
Definition notAfter (a b : Service.HistorySample) : Prop :=
  Service.timestamp a <= Service.timestamp b.

(** [a] is older than [b], by the clock. *)
Definition before (a b : Service.HistorySample) : Prop :=
  Service.timestamp a < Service.timestamp b.

(** The shape of the ring after the samples [samples] have been pushed
    into a fresh service: the slots before the cursor hold the samples of
    the current lap ([newer]), the slots from the cursor on hold what is
    left of the lap before ([older]) or, during the first lap, [null]s;
    together the two laps are the last 60 samples. *)
Definition ring (samples : list Service.HistorySample) (svc : Service.Service)
    : Prop :=
  Service._historyIndex svc = length samples /\
  exists older newer pad,
    Service._history svc
      = map Some newer ++ replicate pad None ++ map Some older /\
    length newer = (length samples mod 60)%nat /\
    (length newer + pad + length older = 60)%nat /\
    (pad = 0%nat \/ older = []) /\
    drop (length samples - 60) samples = older ++ newer.

(** The heartbeat interval is armed exactly when there are clients. *)
Definition heartbeatMatchesRegistry (m : Manager.Manager) : Prop :=
  Manager.intervals m <> [] <-> Manager._clients m <> [].

(** The manager holds no interval without clients, and exactly the one
    in [_heartbeatInterval] with clients. *)
Definition tidy (m : Manager.Manager) : Prop :=
  match Manager._clients m with
  | [] => Manager._heartbeatInterval m = None /\ Manager.intervals m = []
  | _ :: _ =>
      exists id, Manager._heartbeatInterval m = Some id /\ Manager.intervals m = [id]
  end.

(** Every write throws. *)
Definition allThrow : Manager.Res -> bool := fun _ => true.

(** An event during which no [write] throws, and which is not the
    registration of a response that is registered already. *)
Definition calm {Data} (m : Manager.Manager) (e : @Manager.Event Data) : Prop :=
  match e with
  | Manager.AddClient res => res ∉ Manager._clients m
  | Manager.Close _ => True
  | Manager.Broadcast _ throws => forall c, throws c = false
  | Manager.Tick throws => forall c, throws c = false
  end.

(** A run made of calm events only. *)
Fixpoint calmRun {Data} (JSON_stringify : Data -> string)
    (events : list (@Manager.Event Data)) (m : Manager.Manager) : Prop :=
  match events with
  | [] => True
  | e :: rest =>
      calm m e /\
      match Manager.step JSON_stringify m e with
      | Some m' => calmRun JSON_stringify rest m'
      | None => True
      end
  end.

(** *** The subscriber *)

(** A transport error on the client's current [EventSource]. *)
Definition transportError (c : Client.Client) : option Client.Client :=
  match Client._eventSource c with
  | Some es => Client.step c (Client.Error es)
  | None => None
  end.

(** The expiry of the client's pending reconnect timeout. *)
Definition timerExpires (c : Client.Client) : option Client.Client :=
  match Client.pendingTimers c with
  | (t, _) :: _ => Client.step c (Client.TimerFires t)
  | [] => None
  end.

(** [k] transport errors in a row: between two of them nothing happens
    but the expiry of the timeout the first one armed, which reopens the
    transport. *)
Fixpoint consecutiveErrors (k : nat) (c : Client.Client) : option Client.Client :=
  match k with
  | O => Some c
  | S O => transportError c
  | S k' =>
      match transportError c with
      | Some c1 =>
          match timerExpires c1 with
          | Some c2 => consecutiveErrors k' c2
          | None => None
          end
      | None => None
      end
  end.

(** The delay of the reopen that is scheduled, if one is. *)
Definition scheduledDelay (c : Client.Client) : option Z :=
  match Client.pendingTimers c with
  | [(_, delay)] => Some delay
  | _ => None
  end.

(** The events that reset the retry counter: an open event, a frame that
    parses, a manual [reconnect()]. *)
Definition forgiving (e : Client.Event) : bool :=
  match e with
  | Client.Open _ => true
  | Client.Message _ (Some _) => true
  | Client.Reconnect => true
  | _ => false
  end.

Definition isError (e : Client.Event) : bool :=
  match e with
  | Client.Error _ => true
  | _ => false
  end.

Definition isReconnect (e : Client.Event) : bool :=
  match e with
  | Client.Reconnect => true
  | _ => false
  end.

Definition isFrame (e : Client.Event) : bool :=
  match e with
  | Client.Message _ _ => true
  | _ => false
  end.

(** The events the client's user causes, as opposed to the browser. *)
Definition manual (e : Client.Event) : bool :=
  match e with
  | Client.Connect _ | Client.Reconnect => true
  | _ => false
  end.

(** The number of transport errors in a run. *)
Definition errorCount (events : list Client.Event) : nat :=
  length (List.filter isError events).

(** The disconnected state: the circuit breaker has tripped, no transport
    is open and no reopen is scheduled; the status callback, if there is
    one, was last told [disconnected]. *)
Definition isDisconnected (c : Client.Client) : Prop :=
  (Client.MAX_RETRIES <= Client._retryCount c)%nat /\
  Client._eventSource c = None /\
  Client._reconnectTimeout c = None /\
  Client.openSources c = [] /\
  Client.pendingTimers c = [] /\
  (Client._onStatus c = true -> last (Client.statusLog c) = Some Client.disconnected).

(** What the fields say about the browser: the open transports are the
    one in [_eventSource], the armed timeouts carry the handle in
    [_reconnectTimeout]. *)
Definition tracked (c : Client.Client) : Prop :=
  Client.openSources c
    = match Client._eventSource c with Some es => [es] | None => [] end /\
  Forall (fun p => Client._reconnectTimeout c = Some (fst p)) (Client.pendingTimers c).

(** Between two events, moreover: at most one of transport and timeout
    is live, an armed timeout is the only one, and delays and backoff stay
    within the initial and the maximal backoff. *)
Definition settled (c : Client.Client) : Prop :=
  tracked c /\
  match Client._reconnectTimeout c with
  | Some t =>
      Client._eventSource c = None /\
      exists delay, Client.pendingTimers c = [(t, delay)] /\
                    delay <= Client.MAX_BACKOFF
  | None => Client.pendingTimers c = []
  end /\
  Client.INITIAL_BACKOFF <= Client._backoff c <= Client.MAX_BACKOFF.

(** A server that accepts every connection and drops it at once: ten
    rounds of open event, transport error and, between rounds, the expiry
    of the reconnect timeout.  No frame is ever received. *)
Definition acceptThenDrop : list Client.Event :=
  Client.Connect true
    :: concat (map (fun i => [Client.Open (2 * i - 1); Client.Error (2 * i - 1);
                              Client.TimerFires (2 * i)]%nat)
                   (seq 1 9))
    ++ [Client.Open 19%nat; Client.Error 19%nat].

(** A server that refuses every connection: ten transport errors, with
    nothing in between but the expiries of the reconnect timeouts. *)
Definition refuseAll : list Client.Event :=
  Client.Connect true
    :: concat (map (fun i => [Client.Error (2 * i - 1); Client.TimerFires (2 * i)]%nat)
                   (seq 1 9))
    ++ [Client.Error 19%nat].

(** *** Timing of a collection *)

(** The moment [Promise.allSettled(ps)] completes, on the clock of the
    settle times: when the last of [ps] settles, at once if all are settled
    already, never if one stays pending. *)
Fixpoint allSettledAt (ps : list Promise) : option Z :=
  match ps with
  | [] => Some 0
  | Pending :: _ => None
  | SettlesAt t _ :: rest =>
      match allSettledAt rest with
      | Some u => Some (Z.max t u)
      | None => None
      end
  end.

(** The moment the [await] in [getSystemMetrics] resumes. *)
Definition resumesAt (collectors : Collectors) : option Z :=
  allSettledAt (map (fun key => Timeout.withTimeout (collectors key) 1000) keys).

(** The moment the guarded call for one collector settles. *)
Definition guardedAt (p : Promise) : Z :=
  match Timeout.withTimeout p 1000 with
  | SettlesAt t _ => t
  | Pending => 1000
  end.

(** *** Further example cycles *)

(** [allFail]: every collector rejects at once. *)
Definition allFail : Collectors :=
  fun _ => SettlesAt 0 (Rejected (JsError "Hardware failure")).

(** A result object of a mock repository that lacks the disk key, as a
    service may be handed one. *)
Definition withoutDisk : Metrics :=
  fun k =>
    match k with
    | disk => None
    | cpu => Some (mkResult ok (JObj [("usage", JNum 7)]) None)
    | _ => Some (mkResult unavailable JNull (Some "down"))
    end.

(** A store that knows a cpu value and nothing else. *)
Definition cpuKnown : Store :=
  put cpu (JObj [("usage", JNum 42)]) initialStore.


(** *** The registry *)

(** The getter [clientCount]. *)
Definition clientCount (m : Manager.Manager) : nat := length (Manager._clients m).

(** The number of [addClient] calls in a run. *)
Definition registrations {Data} (events : list (@Manager.Event Data)) : nat :=
  length (List.filter (fun e => match e with Manager.AddClient _ => true | _ => false end)
                      events).

(** A day in the life of a manager in which no write fails. *)
Definition quietDay : list (@Manager.Event string) :=
  [Manager.AddClient 1%nat; Manager.AddClient 2%nat;
   Manager.Broadcast "{}" (fun _ => false); Manager.Close 1%nat;
   Manager.Tick (fun _ => false); Manager.Close 2%nat].

(** *** The page *)

Definition isConnect (e : Client.Event) : bool :=
  match e with
  | Client.Connect _ => true
  | _ => false
  end.

(** The data of the last frame of a run that parsed, starting from
    [seen]. *)
Definition lastParsed (events : list Client.Event) (seen : JsValue) : JsValue :=
  fold_left
    (fun seen e =>
       match e with
       | Client.Message _ (Some d) => d
       | _ => seen
       end)
    events seen.

(** What the last status reported says about the client of main.js. *)
Definition reported (c : Client.Client) : Prop :=
  Client._onStatus c = true /\
  exists s,
    last (Client.statusLog c) = Some s /\
    match s with
    | Client.disconnected => isDisconnected c
    | Client.connected =>
        (exists es, Client._eventSource c = Some es) /\ Client._retryCount c = 0%nat
    | Client.reconnecting => (Client._retryCount c < Client.MAX_RETRIES)%nat
    end.

(** The page of a client that received two frames, the second one
    malformed, and then lost its transport. *)
Definition twoFrames : list Client.Event :=
  [Client.Connect true; Client.Open 1%nat;
   Client.Message 1%nat (Some (JNum 1)); Client.Message 1%nat None;
   Client.Error 1%nat].

(** *** The adapters *)

(** No reading of [os.cpus()] so far listed a core. *)
Definition noCores (readings : list (list NodeNative.CpuTimes)) : Prop :=
  Forall (fun cpus => cpus = []) readings.

(** A machine with two cores, at two moments. *)
Definition twoCores : list NodeNative.CpuTimes :=
  [NodeNative.mkTimes 100 0 50 850 0; NodeNative.mkTimes 200 0 50 750 0].

Definition twoCoresLater : list NodeNative.CpuTimes :=
  [NodeNative.mkTimes 400 0 150 1450 0; NodeNative.mkTimes 500 0 150 1350 0].

(** The decimal digits. *)
Definition isDigit (c : Ascii.ascii) : bool :=
  (48 <=? Ascii.nat_of_ascii c)%nat && (Ascii.nat_of_ascii c <=? 57)%nat.

Fixpoint allDigits (s : string) : bool :=
  match s with
  | EmptyString => true
  | String c rest => isDigit c && allDigits rest
  end.

(** Two partitions, one of them without size, fetched at second 1; a
    fetch at second 3 would fail. *)
Definition diskDay : list (Z * Completion (list (@SystemInformation.FsSize Z))) :=
  [ (1000, Normal [SystemInformation.mkFsSize "/dev/sda1" "/" "ext4" 1000 400 600 40;
                   SystemInformation.mkFsSize "tmpfs" "/run" "tmpfs" 0 0 0 0]);
    (3000, Throw "EIO") ].

End Spec.

(* ===================================================================== *)
(** * Properties *)
(* ===================================================================== *)

(** ** Strings *)

Section StringFacts.

Lemma prefix_app (sub post : string) : String.prefix sub (sub +:+ post) = true.
Proof.
  induction sub as [|a sub IH].
  - now destruct post.
  - change (String a sub +:+ post) with (String a (sub +:+ post)).
    cbn [String.prefix].
    destruct (Ascii.ascii_dec a a); [exact IH | congruence].
Qed.

Lemma append_empty_r (s : string) : s +:+ "" = s.
Proof.
  induction s as [|a s IH]; [reflexivity |].
  change (String a s +:+ "") with (String a (s +:+ "")). now rewrite IH.
Qed.

Lemma includes_unfold (s sub : string) :
  includes s sub =
    if String.prefix sub s then true
    else match s with
         | EmptyString => false
         | String _ rest => includes rest sub
         end.
Proof. destruct s; reflexivity. Qed.

Lemma includes_app (pre sub post : string) :
  includes (pre +:+ sub +:+ post) sub = true.
Proof.
  induction pre as [|a pre IH].
  - change ("" +:+ sub +:+ post) with (sub +:+ post).
    rewrite includes_unfold, prefix_app. reflexivity.
  - rewrite includes_unfold.
    destruct (String.prefix sub (String a pre +:+ sub +:+ post)); [reflexivity |].
    exact IH.
Qed.

Lemma includes_prefix (sub post : string) : includes (sub +:+ post) sub = true.
Proof. exact (includes_app "" sub post). Qed.

End StringFacts.

(** ** The timeout guard *)

Section TimeoutFacts.
Import Timeout.

Lemma timerDelay_pos (ms : Z) : 1 <= timerDelay ms.
Proof.
  unfold timerDelay.
  destruct (Z.ltb_spec ms 1); simpl; [lia |].
  destruct (2147483647 <? ms); lia.
Qed.

(** The guard always settles: the timer sees to it. *)
Lemma withTimeout_settles (promise : Promise) (ms : Z) :
  exists t how, withTimeout promise ms = SettlesAt t how.
Proof.
  unfold withTimeout, finally_clearTimeout, timeoutPromise. simpl.
  destruct promise as [|t how]; simpl; [eauto |].
  destruct (t <=? timerDelay ms); eauto.
Qed.

Lemma timeoutMessage_Timeout (ms : Z) : includes (timeoutMessage ms) "Timeout" = true.
Proof. exact (includes_prefix "Timeout" (": operation exceeded " +:+ pretty ms +:+ "ms")). Qed.

Lemma timeoutMessage_deadline (ms : Z) :
  includes (timeoutMessage ms) (pretty ms +:+ "ms") = true.
Proof.
  unfold timeoutMessage.
  pose proof (includes_app "Timeout: operation exceeded " (pretty ms +:+ "ms") "") as H.
  rewrite append_empty_r in H. exact H.
Qed.

Lemma withTimeout_in_time (t : Z) (how : Settlement) (ms : Z) :
  t <= timerDelay ms -> withTimeout (SettlesAt t how) ms = SettlesAt t how.
Proof.
  intros H. unfold withTimeout, finally_clearTimeout, timeoutPromise. simpl.
  destruct (Z.leb_spec t (timerDelay ms)); [reflexivity | lia].
Qed.

Lemma withTimeout_late (t : Z) (how : Settlement) (ms : Z) :
  timerDelay ms < t ->
  withTimeout (SettlesAt t how) ms = SettlesAt (timerDelay ms) (Rejected (timeoutError ms)).
Proof.
  intros H. unfold withTimeout, finally_clearTimeout, timeoutPromise. simpl.
  destruct (Z.leb_spec t (timerDelay ms)); [lia | reflexivity].
Qed.

Lemma withTimeout_pending (ms : Z) :
  withTimeout Pending ms = SettlesAt (timerDelay ms) (Rejected (timeoutError ms)).
Proof. reflexivity. Qed.

(** C7.  If the operation settles before the timer fires, the guard
    settles at the same moment with the same outcome: the fulfilment
    value (whatever it is, [null] and [undefined] included) or the
    original rejection reason.  If the timer fires first, or the operation
    never settles, the guard rejects when the timer fires, with an [Error]
    whose message contains "Timeout" and the deadline followed by "ms". *)
Theorem withTimeout_guard (promise : Promise) (ms : Z) :
  (forall t how, promise = SettlesAt t how -> t < timerDelay ms ->
     withTimeout promise ms = SettlesAt t how) /\
  (withTimeout (SettlesAt 0 (Fulfilled JNull)) ms = SettlesAt 0 (Fulfilled JNull) /\
   withTimeout (SettlesAt 0 (Fulfilled JUndefined)) ms = SettlesAt 0 (Fulfilled JUndefined)) /\
  (promise = Pending \/ (exists t how, promise = SettlesAt t how /\ timerDelay ms < t) ->
     exists msg,
       withTimeout promise ms = SettlesAt (timerDelay ms) (Rejected (JsError msg)) /\
       includes msg "Timeout" = true /\
       includes msg (pretty ms +:+ "ms") = true).
Proof.
  split; [| split].
  - intros t how -> Hlt. apply withTimeout_in_time. lia.
  - pose proof (timerDelay_pos ms).
    split; apply withTimeout_in_time; lia.
  - intros H. exists (timeoutMessage ms).
    split; [| split; [apply timeoutMessage_Timeout | apply timeoutMessage_deadline]].
    destruct H as [-> | (t & how & -> & Hlt)].
    + apply withTimeout_pending.
    + apply withTimeout_late. exact Hlt.
Qed.

(** The guard at work: a 50ms deadline lets a rejection at 10ms through
    and cuts off an operation that would resolve at 500ms. *)
Lemma withTimeout_guard_witness :
  withTimeout (SettlesAt 10 (Rejected (JsError "boom"))) 50
    = SettlesAt 10 (Rejected (JsError "boom")) /\
  exists msg,
    withTimeout (SettlesAt 500 (Fulfilled (JStr "late"))) 50
      = SettlesAt 50 (Rejected (JsError msg)) /\
    includes msg "Timeout" = true /\
    includes msg "50ms" = true.
Proof.
  split.
  - apply (proj1 (withTimeout_guard (SettlesAt 10 (Rejected (JsError "boom"))) 50) 10
             (Rejected (JsError "boom")) eq_refl).
    vm_compute. reflexivity.
  - apply (proj2 (proj2 (withTimeout_guard (SettlesAt 500 (Fulfilled (JStr "late"))) 50))).
    right. exists 500, (Fulfilled (JStr "late")). split; [reflexivity | vm_compute; reflexivity].
Defined.

End TimeoutFacts.

(** ** The collector orchestrator *)

Section RepositoryFacts.
Import Repository Spec.

Lemma keys_NoDup : NoDup keys.
Proof. apply (bool_decide_unpack _). vm_compute. exact I. Qed.

Lemma keys_all (k : MetricKey) : k ∈ keys.
Proof. destruct k; apply (bool_decide_unpack _); vm_compute; exact I. Qed.

Lemma put_eq {A} (k : MetricKey) (a : A) (o : Keyed A) : put k a o k = a.
Proof. unfold put. now rewrite decide_True. Qed.

Lemma put_ne {A} (k k' : MetricKey) (a : A) (o : Keyed A) :
  k' <> k -> put k a o k' = o k'.
Proof. intros H. unfold put. now rewrite decide_False. Qed.

(** The loop body writes its own key only. *)
Lemma classify_other (key k : MetricKey) (result : Settlement) (acc : Metrics * Store) :
  k <> key ->
  fst (classify key result acc) k = fst acc k /\
  snd (classify key result acc) k = snd acc k.
Proof.
  intros H. destruct acc as [m lk]. unfold classify.
  destruct result as [v | r]; [destruct (negb (is_nullish v)) |];
    simpl; rewrite ?put_ne by exact H; split; reflexivity.
Qed.

(** At its own key, it writes what [atKey] computes from the old entry. *)
Lemma classify_own (key : MetricKey) (result : Settlement) (acc : Metrics * Store) :
  fst (classify key result acc) key = Some (fst (atKey key result (snd acc key))) /\
  snd (classify key result acc) key = snd (atKey key result (snd acc key)).
Proof.
  destruct acc as [m lk]. unfold atKey, classify.
  destruct result as [v | r]; [destruct (negb (is_nullish v)) |];
    simpl; rewrite ?put_eq; split; reflexivity.
Qed.

Lemma collectLoop_notin (ks : list MetricKey) (results : list Settlement)
    (acc : Metrics * Store) (k : MetricKey) :
  k ∉ ks ->
  fst (collectLoop ks results acc) k = fst acc k /\
  snd (collectLoop ks results acc) k = snd acc k.
Proof.
  revert results acc.
  induction ks as [|key ks IH]; intros results acc Hk; [now destruct results |].
  destruct results as [|result results]; [split; reflexivity |].
  simpl. apply not_elem_of_cons in Hk as [Hne Hk].
  destruct (IH results (classify key result acc) Hk) as [-> ->].
  apply classify_other. exact Hne.
Qed.

Lemma collectLoop_at (g : MetricKey -> Settlement) (ks : list MetricKey)
    (acc : Metrics * Store) (k : MetricKey) :
  NoDup ks -> k ∈ ks ->
  fst (collectLoop ks (map g ks) acc) k = Some (fst (atKey k (g k) (snd acc k))) /\
  snd (collectLoop ks (map g ks) acc) k = snd (atKey k (g k) (snd acc k)).
Proof.
  revert acc.
  induction ks as [|key ks IH]; intros acc Hnd Hk; [now apply elem_of_nil in Hk |].
  apply NoDup_cons in Hnd as [Hnotin Hnd]. simpl.
  apply elem_of_cons in Hk as [-> | Hk].
  - destruct (collectLoop_notin ks (map g ks) (classify key (g key) acc) key Hnotin)
      as [-> ->].
    apply classify_own.
  - assert (k <> key) as Hne by (intros ->; contradiction).
    destruct (IH (classify key (g key) acc) Hnd Hk) as [-> ->].
    destruct (classify_other key k (g key) acc Hne) as [_ ->].
    split; reflexivity.
Qed.

Lemma allSettled_guarded (c : Collectors) (ks : list MetricKey) :
  Promise_allSettled (map (fun key => Timeout.withTimeout (c key) 1000) ks)
  = Some (map (fun key => guarded (c key)) ks).
Proof.
  induction ks as [|key ks IH]; [reflexivity |].
  simpl. unfold guarded at 1.
  destruct (withTimeout_settles (c key) 1000) as (t & how & ->).
  now rewrite IH.
Qed.

(** [getSystemMetrics] always returns, and what it stores under a key is
    computed from that key's guarded outcome and that key's store entry. *)
Lemma getSystemMetrics_at (c : Collectors) (lk : Store) :
  exists m lk',
    getSystemMetrics c lk = Some (m, lk') /\
    forall k, m k = Some (fst (atKey k (guarded (c k)) (lk k))) /\
              lk' k = snd (atKey k (guarded (c k)) (lk k)).
Proof.
  unfold getSystemMetrics. rewrite allSettled_guarded.
  destruct (collectLoop keys (map (fun key => guarded (c key)) keys) (emptyMetrics, lk))
    as [m lk'] eqn:E.
  exists m, lk'. split; [reflexivity |]. intros k.
  pose proof (collectLoop_at (fun key => guarded (c key)) keys (emptyMetrics, lk) k
                keys_NoDup (keys_all k)) as H.
  rewrite E in H. exact H.
Qed.

(** The three shapes of a result. *)
Lemma atKey_value (k : MetricKey) (v old : JsValue) :
  is_nullish v = false ->
  atKey k (Fulfilled v) old = (mkResult ok v None, v).
Proof.
  intros H. unfold atKey, classify. rewrite H. simpl. now rewrite !put_eq.
Qed.

Lemma atKey_null (k : MetricKey) (v old : JsValue) :
  is_nullish v = true ->
  atKey k (Fulfilled v) old
  = (mkResult unavailable (nullish_or old JNull)
              (Some (keyName k +:+ " returned null")), old).
Proof.
  intros H. unfold atKey, classify. rewrite H. simpl. now rewrite !put_eq.
Qed.

Lemma atKey_rejected (k : MetricKey) (r : Reason) (old : JsValue) :
  atKey k (Rejected r) old
  = (mkResult (if isTimeout r then degraded else unavailable)
              (nullish_or old JNull) (Some (errorText r)), old).
Proof. unfold atKey, classify. simpl. now rewrite !put_eq. Qed.











End RepositoryFacts.

(** ** The history and status service *)

Section ServiceFacts.
Import Repository Service Spec.

(** The priority matrix on four statuses. *)
Lemma computeGlobalStatus_matrix (c m d p : MetricStatus) :
  (_computeGlobalStatus [c; m; d; p] = GlobalOk
     <-> (c = ok /\ m = ok /\ d = ok /\ p = ok)) /\
  (_computeGlobalStatus [c; m; d; p] = GlobalCritical
     <-> (c = unavailable /\ m = unavailable /\ d = unavailable /\ p = unavailable)) /\
  (_computeGlobalStatus [c; m; d; p] = GlobalDegraded
     <-> (~ (c = ok /\ m = ok /\ d = ok /\ p = ok) /\
          ~ (c = unavailable /\ m = unavailable /\ d = unavailable /\ p = unavailable))) /\
  (degraded ∈ [c; m; d; p] -> _computeGlobalStatus [c; m; d; p] = GlobalDegraded) /\
  (ok ∈ [c; m; d; p] -> unavailable ∈ [c; m; d; p] ->
     _computeGlobalStatus [c; m; d; p] = GlobalDegraded).
Proof.
  split; [| split; [| split; [| split]]].
  - destruct c, m, d, p; vm_compute; intuition congruence.
  - destruct c, m, d, p; vm_compute; intuition congruence.
  - destruct c, m, d, p; vm_compute; intuition congruence.
  - intros H. destruct c, m, d, p; try reflexivity;
      exfalso; revert H; rewrite !elem_of_cons, elem_of_nil; intuition congruence.
  - intros H1 H2. destruct c, m, d, p; try reflexivity;
      exfalso; revert H1 H2; rewrite !elem_of_cons, !elem_of_nil; intuition congruence.
Qed.

Lemma get_prop_defined (v : JsValue) (field : string) :
  is_nullish v = false -> exists x, get_prop v field = Normal x.
Proof. destruct v; simpl; intros H; try discriminate H; eauto. Qed.

(** The invariant of MetricResult: status [ok] comes with data. *)
Lemma atKey_ok_data (k : MetricKey) (how : Settlement) (old : JsValue) :
  status (fst (atKey k how old)) = ok ->
  is_nullish (data (fst (atKey k how old))) = false.
Proof.
  destruct how as [v | r].
  - destruct (is_nullish v) eqn:Hv.
    + rewrite atKey_null by exact Hv. discriminate.
    + rewrite atKey_value by exact Hv. intros _. exact Hv.
  - rewrite atKey_rejected. simpl. destruct (isTimeout r); discriminate.
Qed.

Lemma okField_returns (m : Metrics) (k : MetricKey) (r : MetricResult) (field : string) :
  m k = Some r ->
  (status r = ok -> is_nullish (data r) = false) ->
  exists x, okField m k field = Normal x.
Proof.
  intros Hm Hok. unfold okField, metricOf. rewrite Hm.
  destruct (bool_decide (status r = ok)) eqn:E; [| eauto].
  apply bool_decide_eq_true in E. apply get_prop_defined. auto.
Qed.

(** One cycle end to end: it returns, it does not throw, and the object
    it returns is the seven-property literal built from the repository's
    results for cpu, memory, disk and processes. *)
Lemma cycle_returns (c : Collectors) (now : Z) (lk : Store) (svc : Service) :
  exists m lk' rc rm rd rp cpuUsage memPercentage,
    getSystemMetrics c lk = Some (m, lk') /\
    m cpu = Some rc /\ m memory = Some rm /\
    m disk = Some rd /\ m processes = Some rp /\
    okField m cpu "usage" = Normal cpuUsage /\
    okField m memory "percentage" = Normal memPercentage /\
    cycle c now (lk, svc)
    = Some (Normal [ ("timestamp", SvTimestamp now);
                     ("status", SvStatus (_computeGlobalStatus
                                            [status rc; status rm; status rd; status rp]));
                     ("cpu", SvMetric rc);
                     ("memory", SvMetric rm);
                     ("disk", SvMetric rd);
                     ("processes", SvMetric rp);
                     ("history",
                      SvHistory (getHistory
                                   (pushSample (mkSample cpuUsage memPercentage now) svc))) ],
            (lk', pushSample (mkSample cpuUsage memPercentage now) svc)).
Proof.
  destruct (getSystemMetrics_at c lk) as (m & lk' & Hget & Hat).
  destruct (Hat cpu) as [Hc _], (Hat memory) as [Hm _],
           (Hat disk) as [Hd _], (Hat processes) as [Hp _].
  destruct (okField_returns m cpu _ "usage" Hc (atKey_ok_data _ _ _)) as [cu Hcu].
  destruct (okField_returns m memory _ "percentage" Hm (atKey_ok_data _ _ _)) as [mp Hmp].
  exists m, lk'. do 4 eexists. exists cu, mp.
  split; [exact Hget |].
  split; [exact Hc |]. split; [exact Hm |]. split; [exact Hd |]. split; [exact Hp |].
  split; [exact Hcu |]. split; [exact Hmp |].
  unfold cycle. simpl fst. simpl snd. rewrite Hget.
  unfold getCurrentMetrics. rewrite Hcu, Hmp.
  unfold metricOf. rewrite Hc, Hm, Hd, Hp. reflexivity.
Qed.

(** C2.  For the four statuses of cpu, memory, disk and processes, each
    one of [ok], [degraded], [unavailable]: the global status is [ok]
    exactly when all four are [ok], [critical] exactly when all four are
    [unavailable], and [degraded] in every other case; in particular it is
    [degraded] as soon as one of the four is [degraded], and for a mix of
    [ok] and [unavailable].  And the status of every snapshot is the global
    status computed from the statuses of that cycle's cpu, memory, disk and
    processes results, whatever the network and systemInfo results are. *)
Theorem global_status_matrix :
  (forall c m d p : MetricStatus,
     (_computeGlobalStatus [c; m; d; p] = GlobalOk
        <-> (c = ok /\ m = ok /\ d = ok /\ p = ok)) /\
     (_computeGlobalStatus [c; m; d; p] = GlobalCritical
        <-> (c = unavailable /\ m = unavailable /\ d = unavailable /\ p = unavailable)) /\
     (_computeGlobalStatus [c; m; d; p] = GlobalDegraded
        <-> (~ (c = ok /\ m = ok /\ d = ok /\ p = ok) /\
             ~ (c = unavailable /\ m = unavailable /\ d = unavailable /\ p = unavailable))) /\
     (degraded ∈ [c; m; d; p] -> _computeGlobalStatus [c; m; d; p] = GlobalDegraded) /\
     (ok ∈ [c; m; d; p] -> unavailable ∈ [c; m; d; p] ->
        _computeGlobalStatus [c; m; d; p] = GlobalDegraded)) /\
  (forall (collectors : Collectors) (now : Z) (lk : Store) (svc : Service),
   exists m lk' rc rm rd rp snapshot st',
     getSystemMetrics collectors lk = Some (m, lk') /\
     m cpu = Some rc /\ m memory = Some rm /\
     m disk = Some rd /\ m processes = Some rp /\
     cycle collectors now (lk, svc) = Some (Normal snapshot, st') /\
     assoc "status" snapshot
       = Some (SvStatus (_computeGlobalStatus
                           [status rc; status rm; status rd; status rp]))).
Proof.
  split; [exact computeGlobalStatus_matrix |].
  intros collectors now lk svc.
  destruct (cycle_returns collectors now lk svc)
    as (m & lk' & rc & rm & rd & rp & cu & mp &
        Hget & Hc & Hm & Hd & Hp & _ & _ & Hcycle).
  exists m, lk', rc, rm, rd, rp. eexists _, _.
  split; [exact Hget |].
  split; [exact Hc |]. split; [exact Hm |]. split; [exact Hd |]. split; [exact Hp |].
  split; [exact Hcycle | reflexivity].
Qed.

(** The global status at work on the two boundary cases of the matrix. *)
Lemma global_status_matrix_witness :
  _computeGlobalStatus [unavailable; unavailable; unavailable; ok] = GlobalDegraded /\
  _computeGlobalStatus [ok; degraded; ok; ok] = GlobalDegraded.
Proof.
  split.
  - apply (proj2 (proj2 (proj2 (proj2
             (proj1 global_status_matrix unavailable unavailable unavailable ok))))).
    + apply (bool_decide_unpack _). vm_compute. exact I.
    + apply (bool_decide_unpack _). vm_compute. exact I.
  - apply (proj1 (proj2 (proj2 (proj2 (proj1 global_status_matrix ok degraded ok ok))))).
    apply (bool_decide_unpack _). vm_compute. exact I.
Defined.

(** The object a call returns.  Every call returns an object with exactly
    the seven properties timestamp, status, cpu, memory, disk, processes
    and history; the four metric properties hold the repository's results
    and history holds a history read.  The repository's results for
    network and systemInfo exist but are not among the properties, and
    they do not influence the returned object in any way: replacing the
    network and systemInfo collectors leaves it unchanged. *)
Lemma snapshot_shape
    (c : Collectors) (now : Z) (lk : Store) (svc : Service) :
  exists snapshot st' m lk',
    cycle c now (lk, svc) = Some (Normal snapshot, st') /\
    getSystemMetrics c lk = Some (m, lk') /\
    map fst snapshot
      = ["timestamp"; "status"; "cpu"; "memory"; "disk"; "processes"; "history"] /\
    assoc "timestamp" snapshot = Some (SvTimestamp now) /\
    (exists g, assoc "status" snapshot = Some (SvStatus g)) /\
    assoc "cpu" snapshot = SvMetric <$> m cpu /\
    assoc "memory" snapshot = SvMetric <$> m memory /\
    assoc "disk" snapshot = SvMetric <$> m disk /\
    assoc "processes" snapshot = SvMetric <$> m processes /\
    assoc "history" snapshot = Some (SvHistory (getHistory (snd st'))) /\
    is_Some (m network) /\ is_Some (m systemInfo) /\
    assoc "network" snapshot = None /\
    assoc "systemInfo" snapshot = None /\
    (forall c2,
       (forall k, k <> network -> k <> systemInfo -> c2 k = c k) ->
       fst <$> cycle c2 now (lk, svc) = Some (Normal snapshot)).
Proof.
  destruct (cycle_returns c now lk svc)
    as (m & lk' & rc & rm & rd & rp & cu & mp &
        Hget & Hc & Hm & Hd & Hp & Hcu & Hmp & Hcycle).
  eexists _, _, m, lk'. split; [exact Hcycle |]. split; [exact Hget |].
  rewrite Hc, Hm, Hd, Hp.
  do 8 (split; [first [reflexivity | eexists; reflexivity] |]).
  destruct (getSystemMetrics_at c lk) as (m0 & lk0 & Hget0 & Hat).
  rewrite Hget in Hget0. injection Hget0 as <- <-.
  split; [rewrite (proj1 (Hat network)); eauto |].
  split; [rewrite (proj1 (Hat systemInfo)); eauto |].
  split; [reflexivity |]. split; [reflexivity |].
  intros c2 Hsame.
  destruct (cycle_returns c2 now lk svc)
    as (m2 & lk2 & rc2 & rm2 & rd2 & rp2 & cu2 & mp2 &
        Hget2 & Hc2 & Hm2 & Hd2 & Hp2 & Hcu2 & Hmp2 & Hcycle2).
  destruct (getSystemMetrics_at c2 lk) as (m3 & lk3 & Hget3 & Hat2).
  rewrite Hget2 in Hget3. injection Hget3 as <- <-.
  assert (forall k, k <> network -> k <> systemInfo -> m2 k = m k) as Hres.
  { intros k H1 H2. rewrite (proj1 (Hat k)), (proj1 (Hat2 k)).
    now rewrite (Hsame k H1 H2). }
  assert (rc2 = rc) as -> by (rewrite Hres in Hc2 by discriminate; congruence).
  assert (rm2 = rm) as -> by (rewrite Hres in Hm2 by discriminate; congruence).
  assert (rd2 = rd) as -> by (rewrite Hres in Hd2 by discriminate; congruence).
  assert (rp2 = rp) as -> by (rewrite Hres in Hp2 by discriminate; congruence).
  assert (cu2 = cu) as ->.
  { unfold okField, metricOf in Hcu, Hcu2. rewrite Hc in Hcu. rewrite Hc2 in Hcu2.
    congruence. }
  assert (mp2 = mp) as ->.
  { unfold okField, metricOf in Hmp, Hmp2. rewrite Hm in Hmp. rewrite Hm2 in Hmp2.
    congruence. }
  rewrite Hcycle2. reflexivity.
Qed.

(** *** The sort of [getHistory] *)

Lemma insert_first (x : HistorySample) (l : list HistorySample) :
  Forall (notAfter x) l -> insertByTimestamp x l = x :: l.
Proof.
  intros H. destruct l as [|y l]; [reflexivity |].
  apply Forall_cons in H as [Hxy _]. unfold notAfter in Hxy. simpl.
  destruct (Z.leb_spec (timestamp x) (timestamp y)); [reflexivity | lia].
Qed.

Lemma insert_past (x : HistorySample) (l rest : list HistorySample) :
  Forall (fun a => before a x) l ->
  insertByTimestamp x (l ++ rest) = l ++ insertByTimestamp x rest.
Proof.
  induction l as [|a l IH]; intros H; [reflexivity |].
  apply Forall_cons in H as [Hax H]. unfold before in Hax. simpl.
  destruct (Z.leb_spec (timestamp x) (timestamp a)); [lia |].
  now rewrite IH.
Qed.

Lemma insert_perm (x : HistorySample) (l : list HistorySample) :
  Permutation (insertByTimestamp x l) (x :: l).
Proof.
  induction l as [|y l IH]; [reflexivity |]. simpl.
  destruct (timestamp x <=? timestamp y); [reflexivity |].
  rewrite IH. apply perm_swap.
Qed.

Lemma sort_perm (l : list HistorySample) : Permutation (sortByTimestamp l) l.
Proof.
  induction l as [|x l IH]; [reflexivity |].
  unfold sortByTimestamp in *. simpl. rewrite insert_perm. now rewrite IH.
Qed.

Lemma insert_sorted (x : HistorySample) (l : list HistorySample) :
  StronglySorted notAfter l -> StronglySorted notAfter (insertByTimestamp x l).
Proof.
  induction l as [|y l IH]; intros H.
  - repeat constructor.
  - simpl. destruct (Z.leb_spec (timestamp x) (timestamp y)) as [Hle | Hgt].
    + constructor; [exact H |].
      apply StronglySorted_inv in H as [_ Hy].
      constructor; [exact Hle |].
      eapply Forall_impl; [exact Hy |]. unfold notAfter. intros; simpl in *; lia.
    + apply StronglySorted_inv in H as [Hs Hy].
      constructor; [apply IH, Hs |].
      rewrite (Forall_forall (notAfter y)). intros z Hz.
      rewrite insert_perm in Hz.
      apply elem_of_cons in Hz as [-> | Hz]; [unfold notAfter; lia |].
      rewrite Forall_forall in Hy. now apply Hy.
Qed.

(** The read is sorted by timestamp and is a rearrangement of the filled
    slots. *)
Lemma sort_sorted (l : list HistorySample) : StronglySorted notAfter (sortByTimestamp l).
Proof.
  induction l as [|x l IH]; [constructor |]. apply insert_sorted, IH.
Qed.

(** The sort leaves a list alone that is in timestamp order already:
    it is stable. *)
Lemma sort_ascending (l : list HistorySample) :
  StronglySorted notAfter l -> sortByTimestamp l = l.
Proof.
  induction l as [|x l IH]; intros H; [reflexivity |].
  apply StronglySorted_inv in H as [Hs Hx].
  unfold sortByTimestamp in *. simpl. rewrite (IH Hs). now apply insert_first.
Qed.

(** The sort of two laps, the newer one stored first. *)
Lemma sort_laps (older newer : list HistorySample) :
  StronglySorted notAfter older ->
  StronglySorted notAfter newer ->
  Forall (fun b => Forall (fun a => before a b) older) newer ->
  sortByTimestamp (newer ++ older) = older ++ newer.
Proof.
  intros Ho Hn Hbefore. unfold sortByTimestamp. rewrite foldr_app.
  change (foldr insertByTimestamp [] older) with (sortByTimestamp older).
  rewrite (sort_ascending older Ho).
  induction newer as [|b newer IH]; [now rewrite app_nil_r |].
  apply StronglySorted_inv in Hn as [Hn Hb].
  apply Forall_cons in Hbefore as [Hab Hbefore].
  simpl. rewrite (IH Hn Hbefore), (insert_past b older newer Hab).
  now rewrite (insert_first b newer Hb).
Qed.

(** *** The ring *)

Lemma filterBoolean_Some (l : list HistorySample) : filterBoolean (map Some l) = l.
Proof. induction l as [|x l IH]; [reflexivity |]. simpl. now rewrite IH. Qed.

Lemma filterBoolean_None (n : nat) : filterBoolean (replicate n None) = [].
Proof. induction n as [|n IH]; [reflexivity | exact IH]. Qed.

Lemma filterBoolean_app (l1 l2 : list (option HistorySample)) :
  filterBoolean (l1 ++ l2) = filterBoolean l1 ++ filterBoolean l2.
Proof. apply omap_app. Qed.

Lemma ring_initial : ring [] initial.
Proof.
  split; [reflexivity |]. exists [], [], 60%nat.
  repeat split; auto.
Qed.

Lemma mod60_succ (n : nat) :
  (S n mod 60 = if bool_decide (n mod 60 = 59) then 0 else S (n mod 60))%nat.
Proof.
  case_bool_decide as H;
    pose proof (Nat.div_mod_eq n 60); pose proof (Nat.div_mod_eq (S n) 60);
    pose proof (Nat.mod_upper_bound n 60); pose proof (Nat.mod_upper_bound (S n) 60);
    nia.
Qed.

Lemma ring_push (samples : list HistorySample) (svc : Service) (s : HistorySample) :
  ring samples svc -> ring (samples ++ [s]) (pushSample s svc).
Proof.
  intros [Hidx (older & newer & pad & Hhist & Hnew & Hlen & Hpad & Hwin)].
  set (n := length samples) in *.
  assert (length (samples ++ [s]) = S n) as Hn'
    by (rewrite length_app; cbn [length]; lia).
  assert (length (map Some newer : list (option HistorySample)) = length newer) as Hmap
    by apply length_map.
  assert (n mod 60 < 60)%nat as Hr by (apply Nat.mod_upper_bound; lia).
  split; [simpl; rewrite Hidx, Hn'; reflexivity |].
  unfold pushSample, HISTORY_SIZE. cbn [_history _historyIndex].
  rewrite Hidx, Hhist, Hn', mod60_succ.
  rewrite insert_app_r_alt by (rewrite Hmap; lia).
  rewrite Hmap, Hnew, Nat.sub_diag.
  assert (length (older ++ newer) = n - (n - 60))%nat as Hwlen
    by (rewrite <- Hwin, length_drop; reflexivity).
  rewrite length_app in Hwlen.
  destruct pad as [|pad].
  - (* the ring is full: the oldest sample is overwritten *)
    destruct older as [|a older]; [simpl in Hlen; lia |].
    simpl in Hlen, Hwlen. assert (60 <= n)%nat as Hfull by lia.
    assert (drop (S n - 60) (samples ++ [s]) = older ++ newer ++ [s]) as Hwin'.
    { rewrite drop_app_le by (fold n; lia).
      replace (S n - 60)%nat with ((n - 60) + 1)%nat by lia.
      rewrite <- drop_drop, Hwin. simpl. rewrite drop_0. now rewrite <- app_assoc. }
    cbn -[Nat.modulo Nat.div drop Nat.sub]. case_bool_decide as Hwrap.
    + exists (newer ++ [s]), [], 0%nat.
      assert (older = []) as -> by (destruct older; [reflexivity | simpl in Hlen; lia]).
      cbn -[Nat.modulo Nat.div drop Nat.sub]. rewrite ?app_nil_r.
      split; [rewrite map_app; reflexivity |].
      split; [reflexivity |].
      split; [rewrite length_app; cbn [length]; lia |].
      split; [now left |]. rewrite ?app_nil_r. exact Hwin'.
    + exists older, (newer ++ [s]), 0%nat.
      split; [rewrite map_app; simpl; now rewrite <- app_assoc |].
      split; [rewrite length_app; cbn [length]; lia |].
      split; [rewrite length_app; cbn [length]; lia |].
      split; [now left | exact Hwin'].
  - (* first lap: a [null] slot is filled *)
    destruct Hpad as [Hpad | ->]; [discriminate |].
    simpl in Hlen, Hwlen. assert (n < 60)%nat as Hfirst by lia.
    assert (drop (n - 60) samples = samples) as Hall
      by (replace (n - 60)%nat with 0%nat by lia; apply drop_0).
    rewrite Hall in Hwin. simpl in Hwin. subst newer.
    assert (drop (S n - 60) (samples ++ [s]) = samples ++ [s]) as Hwin'
      by (replace (S n - 60)%nat with 0%nat by lia; apply drop_0).
    cbn -[Nat.modulo Nat.div drop Nat.sub]. case_bool_decide as Hwrap.
    + exists (samples ++ [s]), [], 0%nat.
      assert (pad = 0)%nat as -> by (fold n in Hnew; lia).
      cbn -[Nat.modulo Nat.div drop Nat.sub].
      split; [rewrite map_app; reflexivity |].
      split; [reflexivity |].
      split; [rewrite length_app; fold n; cbn [length]; lia |].
      split; [now left |]. rewrite ?app_nil_r. exact Hwin'.
    + exists [], (samples ++ [s]), pad.
      split; [rewrite map_app; simpl; now rewrite <- app_assoc |].
      split; [rewrite length_app; fold n; cbn [length]; lia |].
      split; [rewrite length_app; fold n; cbn [length]; lia |].
      split; [now right | exact Hwin'].
Qed.

Lemma ring_pushAll (samples : list HistorySample) :
  ring samples (pushAll samples initial).
Proof.
  induction samples as [|s samples IH] using rev_ind; [exact ring_initial |].
  unfold pushAll. rewrite fold_left_app. simpl. apply ring_push, IH.
Qed.

(** *** Reads *)

(** The read of a ring: the filled slots in slot order are the current
    lap followed by what is left of the lap before. *)
Lemma ring_read (samples : list HistorySample) (svc : Service) :
  ring samples svc ->
  exists older newer,
    drop (length samples - 60) samples = older ++ newer /\
    length newer = (length samples mod 60)%nat /\
    getHistory svc = sortByTimestamp (newer ++ older).
Proof.
  intros [_ (older & newer & pad & Hhist & Hnew & _ & _ & Hwin)].
  exists older, newer. split; [exact Hwin |]. split; [exact Hnew |].
  unfold getHistory. rewrite Hhist, !filterBoolean_app.
  now rewrite !filterBoolean_Some, filterBoolean_None.
Qed.

(** A read never holds more than 60 samples: it holds as many as were
    pushed, up to 60, and they are the last ones pushed, in timestamp
    order. *)
Lemma ring_read_bound (samples : list HistorySample) (svc : Service) :
  ring samples svc ->
  length (getHistory svc) = Nat.min (length samples) 60 /\
  (length (getHistory svc) <= 60)%nat /\
  Permutation (getHistory svc) (drop (length samples - 60) samples) /\
  StronglySorted notAfter (getHistory svc).
Proof.
  intros Hring. destruct (ring_read samples svc Hring) as (older & newer & Hwin & _ & ->).
  assert (Permutation (sortByTimestamp (newer ++ older))
                      (drop (length samples - 60) samples)) as Hperm.
  { rewrite sort_perm, Hwin. apply Permutation_app_comm. }
  assert (length (sortByTimestamp (newer ++ older)) = Nat.min (length samples) 60) as Hlen.
  { rewrite (Permutation_length Hperm), length_drop. lia. }
  split; [exact Hlen |]. split; [lia |]. split; [exact Hperm | apply sort_sorted].
Qed.

Lemma before_notAfter (l : list HistorySample) :
  StronglySorted before l -> StronglySorted notAfter l.
Proof.
  induction 1 as [|x l _ IH Hx]; constructor; [exact IH |].
  eapply Forall_impl; [exact Hx |]. unfold before, notAfter. intros; simpl in *; lia.
Qed.

(** When every sample carries a later timestamp than the one pushed
    before it, the read is the last 60 samples pushed, oldest first. *)
Lemma ring_read_chronological (samples : list HistorySample) (svc : Service) :
  ring samples svc ->
  StronglySorted before samples ->
  getHistory svc = drop (length samples - 60) samples.
Proof.
  intros Hring Hsorted.
  destruct (ring_read samples svc Hring) as (older & newer & Hwin & _ & ->).
  rewrite Hwin.
  assert (StronglySorted before (older ++ newer)) as Hw.
  { rewrite <- Hwin. rewrite <- (take_drop (length samples - 60) samples) in Hsorted.
    exact (StronglySorted_app_1_r _ _ _ Hsorted). }
  apply StronglySorted_app in Hw as (Hcross & Ho & Hn).
  apply sort_laps; [now apply before_notAfter | now apply before_notAfter |].
  rewrite Forall_forall. intros b Hb. rewrite Forall_forall. intros a Ha.
  now apply Hcross.
Qed.

(** When all samples carry the same timestamp, the read is in slot
    order: the current lap first. *)
Lemma ring_read_same_timestamp (samples : list HistorySample) (svc : Service) (t : Z) :
  ring samples svc ->
  Forall (fun x => timestamp x = t) samples ->
  exists older newer,
    drop (length samples - 60) samples = older ++ newer /\
    length newer = (length samples mod 60)%nat /\
    getHistory svc = newer ++ older.
Proof.
  intros Hring Hsame.
  destruct (ring_read samples svc Hring) as (older & newer & Hwin & Hnew & ->).
  exists older, newer. split; [exact Hwin |]. split; [exact Hnew |].
  apply sort_ascending.
  assert (Forall (fun x => timestamp x = t) (newer ++ older)) as Hall.
  { apply (Forall_drop _ (length samples - 60)) in Hsame. rewrite Hwin in Hsame.
    apply Forall_app in Hsame as [Ho Hn]. apply Forall_app. now split. }
  clear -Hall. induction (newer ++ older) as [|x l IH]; [constructor |].
  apply Forall_cons in Hall as [Hx Hl].
  constructor; [apply IH, Hl |].
  eapply Forall_impl; [exact Hl |]. unfold notAfter. intros; simpl in *; lia.
Qed.

(** *** Calls *)

(** However the collectors behave, successive calls all return a
    snapshot, and each pushes one sample stamped with its [Date.now()]. *)
Lemma calls_push (inputs : list (Collectors * Z)) (lk0 : Store) (svc0 : Service) :
  exists results lk samples,
    calls inputs (lk0, svc0) = Some (results, (lk, pushAll samples svc0)) /\
    map timestamp samples = map snd inputs /\
    Forall (fun r => exists snapshot, r = Normal snapshot) results /\
    length results = length inputs.
Proof.
  revert lk0 svc0. induction inputs as [|[c now] rest IH]; intros lk0 svc0.
  - exists [], lk0, []. repeat split; constructor.
  - destruct (cycle_returns c now lk0 svc0)
      as (m & lk1 & rc & rm & rd & rp & cu & mp & _ & _ & _ & _ & _ & _ & _ & Hcycle).
    destruct (IH lk1 (pushSample (mkSample cu mp now) svc0))
      as (results & lk & samples & Hcalls & Hts & Hok & Hlen).
    eexists (_ :: results), lk, (mkSample cu mp now :: samples).
    simpl. rewrite Hcycle, Hcalls.
    split; [reflexivity |]. split; [now rewrite Hts |].
    split; [constructor; [eexists; reflexivity | exact Hok] | now rewrite Hlen].
Qed.

(** What holds of the history after any number of calls on a fresh
    service: the read has at most 60 entries (as many as there were calls,
    up to 60), is sorted by timestamp, and, when [Date.now()] grew from
    each call to the next, carries the timestamps of the last 60 calls in
    the order of the calls. *)
Lemma history_after_calls (inputs : list (Collectors * Z)) :
  exists svc,
    serviceAfter inputs = Some svc /\
    length (getHistory svc) = Nat.min (length inputs) 60 /\
    (length (getHistory svc) <= 60)%nat /\
    StronglySorted notAfter (getHistory svc) /\
    (StronglySorted Z.lt (map snd inputs) ->
     map timestamp (getHistory svc) = drop (length inputs - 60) (map snd inputs)).
Proof.
  destruct (calls_push inputs initialStore initial)
    as (results & lk & samples & Hcalls & Hts & _ & _).
  exists (pushAll samples initial).
  unfold serviceAfter. rewrite Hcalls. split; [reflexivity |].
  pose proof (ring_pushAll samples) as Hring.
  assert (length samples = length inputs) as Hlen.
  { rewrite <- (length_map timestamp samples), Hts. apply length_map. }
  destruct (ring_read_bound samples _ Hring) as (H1 & H2 & _ & H4).
  rewrite Hlen in H1.
  split; [exact H1 |]. split; [exact H2 |]. split; [exact H4 |].
  intros Hinc.
  rewrite (ring_read_chronological samples _ Hring).
  - rewrite <- Hts, Hlen. clear. generalize (length inputs - 60)%nat as n.
    induction samples as [|x l IH]; intros [|n]; simpl; auto.
  - rewrite <- Hts in Hinc. clear -Hinc.
    induction samples as [|x l IH]; [constructor |].
    simpl in Hinc. apply StronglySorted_inv in Hinc as [Hl Hx].
    constructor; [apply IH, Hl |].
    rewrite Forall_forall in Hx. rewrite Forall_forall. intros y Hy.
    apply Hx. apply list_elem_of_In. apply in_map. now apply list_elem_of_In.
Qed.

(** C3 at 65 calls.  The service's own test makes 65 calls numbered 1 to
    65 and expects the read to start with call 6 and to end with call 65.
    When the 65 calls read the same [Date.now()], the read has 60 entries
    but starts with call 61: calls 61 to 65, then calls 6 to 60.  One
    millisecond apart, the same calls give calls 6 to 65 in order. *)
Theorem history_same_millisecond :
  (fun svc => map sample_cpu (getHistory svc)) <$> serviceAfter sameMillisecond
    = Some (map (fun i => JNum (Z.of_nat i)) (seq 61 5 ++ seq 6 55)) /\
  (fun svc => head (map sample_cpu (getHistory svc))) <$> serviceAfter sameMillisecond
    = Some (Some (JNum 61)) /\
  (fun svc => length (getHistory svc)) <$> serviceAfter sameMillisecond
    = Some 60%nat /\
  (fun svc => map sample_cpu (getHistory svc)) <$> serviceAfter oneMillisecondApart
    = Some (map (fun i => JNum (Z.of_nat i)) (seq 6 60)).
Proof. repeat split; vm_compute; reflexivity. Qed.

(** C9 at one call.  With every collector healthy, the repository returns
    results for network and systemInfo, and the object the service returns
    has no such properties. *)
Theorem snapshot_without_network :
  resultAt network (getSystemMetrics healthy initialStore)
    = Some (mkResult ok (JObj [("rxSec", JNum 1000); ("txSec", JNum 500)]) None) /\
  resultAt systemInfo (getSystemMetrics healthy initialStore)
    = Some (mkResult ok (JObj [("hostname", JStr "test-host")]) None) /\
  fst <$> cycle healthy 1700000000000 (initialStore, initial)
    = Some (Normal
              [ ("timestamp", SvTimestamp 1700000000000);
                ("status", SvStatus GlobalOk);
                ("cpu", SvMetric (mkResult ok (JObj [("usage", JNum 42)]) None));
                ("memory", SvMetric (mkResult ok (JObj [("percentage", JNum 50)]) None));
                ("disk", SvMetric (mkResult ok (JArr []) None));
                ("processes", SvMetric (mkResult ok (JObj [("totalCount", JNum 100)]) None));
                ("history",
                 SvHistory [mkSample (JNum 42) (JNum 50) 1700000000000]) ]) /\
  (fun r => match r with
            | Normal snapshot => (assoc "network" snapshot, assoc "systemInfo" snapshot)
            | Throw _ => (None, None)
            end) <$> (fst <$> cycle healthy 1700000000000 (initialStore, initial))
    = Some (None, None).
Proof. repeat split; vm_compute; reflexivity. Qed.

End ServiceFacts.

(** ** The broadcast manager *)

Section ManagerFacts.
Import Manager Spec.
Context {Data : Type} (JSON_stringify : Data -> string).

Lemma filter_filter (f g : Res -> bool) (l : list Res) :
  List.filter f (List.filter g l) = List.filter (fun x => g x && f x) l.
Proof.
  induction l as [|x l IH]; [reflexivity |]. simpl.
  destruct (g x); simpl; [destruct (f x) |]; now rewrite IH.
Qed.

Lemma filter_true (l : list Res) : List.filter (fun _ => true) l = l.
Proof. induction l as [|x l IH]; [reflexivity |]. simpl. now rewrite IH. Qed.

(** The loop: every listed client gets one [write] call with the payload,
    in order; the clients whose call throws are deleted from the [Set];
    nothing else changes; and the loop completes normally. *)
Lemma forOf_writeOrEvict (payload : string) (throws : Res -> bool)
    (xs : list Res) (m : Manager) :
  exists m',
    forOf (writeOrEvict payload throws) xs m = Normal m' /\
    _clients m'
      = List.filter (fun c => negb (bool_decide (c ∈ xs) && throws c)) (_clients m) /\
    writeLog m' = writeLog m ++ map (fun c => mkWrite c payload (negb (throws c))) xs /\
    _heartbeatInterval m' = _heartbeatInterval m /\
    intervals m' = intervals m /\
    nextInterval m' = nextInterval m /\
    listeners m' = listeners m.
Proof.
  revert m. induction xs as [|x xs IH]; intros m.
  - exists m. split; [reflexivity |]. simpl.
    split; [| rewrite app_nil_r; repeat split].
    induction (_clients m) as [|c l IHl]; [reflexivity |]. simpl. now rewrite <- IHl.
  - simpl. unfold writeOrEvict at 1, write. destruct (throws x) eqn:Hx.
    + match goal with |- context [forOf _ xs ?m1] => destruct (IH m1) as (m' & -> & Hc & Hcalls & H1 & H2 & H3 & H4) end.
      exists m'. split; [reflexivity |]. simpl in *.
      split; [| split; [rewrite Hcalls, <- app_assoc; reflexivity | auto]].
      rewrite Hc. unfold Set_delete. rewrite filter_filter.
      apply List.filter_ext. intros c.
      destruct (decide (c = x)) as [-> | Hne].
      * rewrite (bool_decide_eq_true_2 (x = x)) by reflexivity.
        rewrite (bool_decide_eq_true_2 (x ∈ x :: xs)) by (apply elem_of_cons; now left).
        now rewrite Hx.
      * rewrite (bool_decide_eq_false_2 (c = x)) by exact Hne. simpl.
        f_equal. f_equal. apply bool_decide_ext. rewrite elem_of_cons. tauto.
    + match goal with |- context [forOf _ xs ?m1] => destruct (IH m1) as (m' & -> & Hc & Hcalls & H1 & H2 & H3 & H4) end.
      exists m'. split; [reflexivity |]. simpl in *.
      split; [| split; [rewrite Hcalls, <- app_assoc; reflexivity | auto]].
      rewrite Hc. apply List.filter_ext. intros c.
      destruct (decide (c = x)) as [-> | Hne].
      * rewrite Hx, !andb_false_r. reflexivity.
      * f_equal. f_equal. apply bool_decide_ext. rewrite elem_of_cons. tauto.
Qed.

Lemma filter_not_member (throws : Res -> bool) (cs : list Res) :
  List.filter (fun c => negb (bool_decide (c ∈ cs) && throws c)) cs
  = List.filter (fun c => negb (throws c)) cs.
Proof.
  apply List.filter_ext_in. intros c Hc.
  rewrite bool_decide_eq_true_2 by now apply list_elem_of_In. reflexivity.
Qed.


(** Where the heartbeat does follow the registry: as long as no write
    throws (and no response registers twice), the interval is armed
    exactly while there are clients. *)
Lemma onClose_tidy (res : Res) (m : Manager) (ls : list Res) :
  tidy m ->
  tidy (onClose res (mkManager (_clients m) (_heartbeatInterval m) (intervals m)
                               (nextInterval m) ls (writeLog m))).
Proof.
  unfold tidy, onClose, with_clients, _stopHeartbeat. simpl.
  intros Htidy.
  destruct (Set_delete res (_clients m)) as [|c cs] eqn:Hdel; simpl.
  - destruct (_clients m) as [|c0 cs0].
    + destruct Htidy as [-> ->]. simpl. auto.
    + destruct Htidy as (id & -> & ->). simpl.
      rewrite bool_decide_eq_true_2 by reflexivity. simpl. auto.
  - destruct (_clients m) as [|c0 cs0]; [discriminate Hdel | exact Htidy].
Qed.

Lemma calm_step_tidy (m m' : Manager) (e : @Event Data) :
  tidy m -> calm m e -> step JSON_stringify m e = Some m' -> tidy m'.
Proof.
  intros Htidy Hcalm Hstep.
  destruct e as [res | res | d throws | throws]; unfold step in Hstep; unfold calm in Hcalm.
  - injection Hstep as <-. unfold addClient, Set_add, tidy in *. simpl.
    rewrite (bool_decide_eq_false_2 (res ∈ _clients m)) by exact Hcalm.
    destruct (_clients m) as [|c cs]; simpl.
    + destruct Htidy as [_ ->]. eauto.
    + rewrite bool_decide_eq_false_2
        by (rewrite length_app; simpl; lia).
      simpl. exact Htidy.
  - case_bool_decide; [| discriminate]. injection Hstep as <-.
    apply onClose_tidy. exact Htidy.
  - unfold broadcast, forEachClient in Hstep.
    destruct (forOf_writeOrEvict (payloadOf JSON_stringify d) throws (_clients m) m)
      as (m1 & Hrun & Hc & _ & Hhb & Hint & _).
    rewrite filter_not_member in Hc.
    rewrite Hrun in Hstep. injection Hstep as <-. unfold tidy. rewrite Hc, Hhb, Hint.
    rewrite (List.filter_ext _ (fun _ => true)) by (intros c; now rewrite Hcalm).
    rewrite filter_true. exact Htidy.
  - unfold heartbeat, forEachClient in Hstep.
    destruct (forOf_writeOrEvict (":heartbeat" +:+ LF +:+ LF) throws (_clients m) m)
      as (m1 & Hrun & Hc & _ & Hhb & Hint & _).
    rewrite Hrun in Hstep.
    assert (m1 = m') as <- by (destruct (intervals m); congruence).
    rewrite filter_not_member in Hc.
    unfold tidy. rewrite Hc, Hhb, Hint.
    rewrite (List.filter_ext _ (fun _ => true)) by (intros c; now rewrite Hcalm).
    rewrite filter_true. exact Htidy.
Qed.

Lemma tidy_heartbeatMatchesRegistry (m : Manager) :
  tidy m -> heartbeatMatchesRegistry m.
Proof.
  unfold tidy, heartbeatMatchesRegistry.
  destruct (_clients m); [intros [_ ->]; tauto |].
  intros (id & _ & ->). split; discriminate.
Qed.

Lemma calm_run_heartbeat (events : list (@Event Data)) (m m' : Manager) :
  tidy m -> calmRun JSON_stringify events m ->
  run JSON_stringify events m = Some m' ->
  heartbeatMatchesRegistry m'.
Proof.
  revert m. induction events as [|e rest IH]; intros m Htidy Hcalm Hrun; simpl in *.
  - injection Hrun as <-. now apply tidy_heartbeatMatchesRegistry.
  - destruct Hcalm as [He Hrest].
    destruct (step JSON_stringify m e) as [m1|] eqn:Hstep; [| discriminate].
    eapply IH; [| exact Hrest | exact Hrun].
    eapply calm_step_tidy; eauto.
Qed.

End ManagerFacts.

Section ManagerRuns.
Import Manager Spec.


(** C8 on a run.  One client registers, and the write of the next
    broadcast to it throws: the registry is empty and the heartbeat
    interval is still armed.  The same after a heartbeat tick whose write
    throws.  And if a second client registers before the first one's
    ['close'] arrives, a second interval is armed over the first, which
    then stays armed after both clients have closed. *)
Theorem heartbeat_outlives_registry :
  (fun m => (_clients m, _heartbeatInterval m, intervals m))
    <$> run (fun s : string => s) [AddClient 1%nat; Broadcast "{}" allThrow] initial
    = Some ([], Some 0%nat, [0%nat]) /\
  (fun m => (_clients m, _heartbeatInterval m, intervals m))
    <$> run (fun s : string => s) [AddClient 1%nat; Tick allThrow] initial
    = Some ([], Some 0%nat, [0%nat]) /\
  (fun m => (_clients m, _heartbeatInterval m, intervals m))
    <$> run (fun s : string => s)
            [AddClient 1%nat; Broadcast "{}" allThrow; AddClient 2%nat;
             Close 1%nat; Close 2%nat] initial
    = Some ([], None, [0%nat]) /\
  (fun m => (_clients m, _heartbeatInterval m, intervals m))
    <$> run (fun s : string => s) [AddClient 1%nat; Close 1%nat] initial
    = Some ([], None, []).
Proof. repeat split; vm_compute; reflexivity. Qed.

End ManagerRuns.

(** ** The subscriber *)

Section ClientFacts.
Import Client Spec.

Lemma filter_self (es : SourceId) :
  List.filter (fun i => negb (bool_decide (i = es))) [es] = [].
Proof. simpl. now rewrite bool_decide_eq_true_2. Qed.

Lemma filter_timer (t : TimerId) (l : list (TimerId * Z)) :
  Forall (fun p => Some t = Some (fst p)) l ->
  List.filter (fun p => negb (bool_decide (fst p = t))) l = [].
Proof.
  induction 1 as [|p l Hp _ IH]; [reflexivity |].
  injection Hp as Hp. simpl. now rewrite bool_decide_eq_true_2.
Qed.

Lemma notify_fields (s : ConnStatus) (c : Client) :
  _eventSource (notify s c) = _eventSource c /\
  _retryCount (notify s c) = _retryCount c /\
  _lastData (notify s c) = _lastData c /\
  _onStatus (notify s c) = _onStatus c /\
  _backoff (notify s c) = _backoff c /\
  _reconnectTimeout (notify s c) = _reconnectTimeout c /\
  openSources (notify s c) = openSources c /\
  pendingTimers (notify s c) = pendingTimers c /\
  nextId (notify s c) = nextId c /\
  (_onStatus c = true -> last (statusLog (notify s c)) = Some s).
Proof.
  unfold notify. destruct (_onStatus c) eqn:E; simpl; repeat split; auto;
    try discriminate.
  intros _. apply last_snoc.
Qed.

(** [_close()] leaves no transport open and no timeout armed. *)
Lemma close_clean (c : Client) :
  tracked c ->
  _eventSource (_close c) = None /\
  openSources (_close c) = [] /\
  _reconnectTimeout (_close c) = None /\
  pendingTimers (_close c) = [] /\
  _retryCount (_close c) = _retryCount c /\
  _backoff (_close c) = _backoff c /\
  _onStatus (_close c) = _onStatus c /\
  nextId (_close c) = nextId c.
Proof.
  intros [Hsrc Htim]. unfold _close.
  destruct (_eventSource c) as [es|] eqn:Hes;
    destruct (_reconnectTimeout c) as [t|] eqn:Ht; simpl;
    rewrite ?Ht; simpl; rewrite ?Hsrc, ?filter_self;
    repeat split; auto.
  - now apply filter_timer.
  - destruct (pendingTimers c) as [|p l]; [reflexivity |].
    apply Forall_cons in Htim as [[=] _].
  - now apply filter_timer.
  - destruct (pendingTimers c) as [|p l]; [reflexivity |].
    apply Forall_cons in Htim as [[=] _].
Qed.

(** [_open()] leaves exactly the transport it creates. *)
Lemma open_fresh (c : Client) :
  tracked c ->
  _eventSource (_open c) = Some (nextId c) /\
  openSources (_open c) = [nextId c] /\
  _reconnectTimeout (_open c) = None /\
  pendingTimers (_open c) = [] /\
  _retryCount (_open c) = _retryCount c /\
  _backoff (_open c) = _backoff c /\
  _onStatus (_open c) = _onStatus c /\
  (_onStatus c = true -> last (statusLog (_open c)) = Some reconnecting).
Proof.
  intros Htracked.
  destruct (close_clean c Htracked) as (H1 & H2 & H3 & H4 & H5 & H6 & H7 & H8).
  destruct (notify_fields reconnecting (_close c))
    as (N1 & N2 & N3 & N4 & N5 & N6 & N7 & N8 & N9 & N10).
  unfold _open. simpl.
  rewrite N2, N4, N5, N6, N7, N8, N9, H2, H3, H4, H5, H6, H7, H8.
  repeat split; auto. intros Hon. apply N10. now rewrite H7.
Qed.

Lemma open_settled (c : Client) :
  tracked c ->
  INITIAL_BACKOFF <= _backoff c <= MAX_BACKOFF ->
  settled (_open c).
Proof.
  intros Htracked Hb.
  destruct (open_fresh c Htracked) as (H1 & H2 & H3 & H4 & _ & H6 & _).
  unfold settled, tracked. rewrite H1, H2, H3, H4, H6.
  repeat split; auto; apply Hb.
Qed.

Lemma initial_settled : settled initial.
Proof.
  unfold settled, tracked, initial, INITIAL_BACKOFF, MAX_BACKOFF. simpl.
  repeat split; auto; lia.
Qed.

(** The [onerror] handler: it closes the transport and counts the
    error; at the tenth it reports [disconnected] and arms nothing;
    before, it arms one timeout with the current backoff as delay and
    doubles the backoff up to the maximum. *)
Lemma onerror_outcome (c : Client) :
  tracked c ->
  _eventSource (onerror c) = None /\
  openSources (onerror c) = [] /\
  _retryCount (onerror c) = S (_retryCount c) /\
  _onStatus (onerror c) = _onStatus c /\
  if bool_decide (MAX_RETRIES <= S (_retryCount c))%nat then
    _reconnectTimeout (onerror c) = None /\
    pendingTimers (onerror c) = [] /\
    _backoff (onerror c) = _backoff c /\
    (_onStatus c = true -> last (statusLog (onerror c)) = Some disconnected)
  else
    _reconnectTimeout (onerror c) = Some (nextId c) /\
    pendingTimers (onerror c) = [(nextId c, _backoff c)] /\
    _backoff (onerror c) = Z.min (_backoff c * 2) MAX_BACKOFF /\
    (_onStatus c = true -> last (statusLog (onerror c)) = Some reconnecting).
Proof.
  intros Htracked.
  destruct (close_clean c Htracked) as (H1 & H2 & H3 & H4 & H5 & H6 & H7 & H8).
  unfold onerror.
  destruct (_close c) as [es r ld os b rt srcs pts nid log]. simpl in *. subst.
  destruct (bool_decide (MAX_RETRIES <= S (_retryCount c))%nat);
    unfold notify; simpl; destruct (_onStatus c); simpl;
    repeat split; auto; intros; first [apply last_snoc | discriminate].
Qed.

Lemma onerror_settled (c : Client) : settled c -> settled (onerror c).
Proof.
  intros (Htracked & _ & Hb).
  destruct (onerror_outcome c Htracked) as (H1 & H2 & _ & _ & Hcase).
  unfold settled, tracked. rewrite H1, H2.
  destruct (bool_decide (MAX_RETRIES <= S (_retryCount c))%nat).
  - destruct Hcase as (-> & -> & -> & _). repeat split; auto; apply Hb.
  - destruct Hcase as (-> & -> & -> & _). unfold MAX_BACKOFF, INITIAL_BACKOFF in *.
    repeat split; auto; try lia.
    exists (_backoff c). split; [reflexivity | lia].
Qed.

(** Every event leads from a settled state to a settled state. *)
Lemma step_settled (c c' : Client) (e : Event) :
  settled c -> step c e = Some c' -> settled c'.
Proof.
  intros Hs Hstep. pose proof Hs as (Htracked & Htimer & Hb).
  destruct e as [b | | es | es parsed | es | t]; simpl in Hstep.
  - injection Hstep as <-. apply open_settled; [exact Htracked | exact Hb].
  - injection Hstep as <-. apply open_settled; [exact Htracked |].
    simpl. unfold INITIAL_BACKOFF, MAX_BACKOFF. lia.
  - case_bool_decide; [| discriminate]. injection Hstep as <-.
    unfold onopen.
    match goal with |- settled (notify connected ?x) =>
      destruct (notify_fields connected x)
        as (N1 & _ & _ & _ & N5 & N6 & N7 & N8 & _)
    end.
    unfold settled, tracked. rewrite N1, N5, N6, N7, N8. simpl.
    split; [exact Htracked |]. split; [exact Htimer |].
    unfold INITIAL_BACKOFF, MAX_BACKOFF. lia.
  - case_bool_decide; [| discriminate]. injection Hstep as <-.
    destruct parsed as [d|]; [| exact Hs]. exact Hs.
  - case_bool_decide; [| discriminate]. injection Hstep as <-.
    now apply onerror_settled.
  - case_bool_decide; [| discriminate]. injection Hstep as <-.
    apply open_settled; [| exact Hb].
    destruct Htracked as [Hsrc Htim]. split; [exact Hsrc |]. simpl.
    rewrite Forall_forall in Htim. rewrite Forall_forall. intros p Hp.
    apply Htim. apply list_elem_of_In in Hp. apply List.filter_In in Hp as [Hp _].
    now apply list_elem_of_In.
Qed.

Lemma run_settled (events : list Event) (c c' : Client) :
  settled c -> run events c = Some c' -> settled c'.
Proof.
  revert c. induction events as [|e rest IH]; intros c Hs Hrun; simpl in Hrun.
  - now injection Hrun as <-.
  - destruct (step c e) as [c1|] eqn:Hstep; [| discriminate].
    eapply IH; [| exact Hrun]. eapply step_settled; eauto.
Qed.

Lemma reachable_settled (c : Client) : reachable c -> settled c.
Proof. intros [events Hrun]. eapply run_settled; [exact initial_settled | exact Hrun]. Qed.

Lemma run_app (tr1 tr2 : list Event) (c : Client) :
  run (tr1 ++ tr2) c = match run tr1 c with Some c1 => run tr2 c1 | None => None end.
Proof.
  revert c. induction tr1 as [|e tr1 IH]; intros c; [reflexivity |].
  simpl. destruct (step c e); [apply IH | reflexivity].
Qed.

Lemma reachable_run (events : list Event) (c c' : Client) :
  reachable c -> run events c = Some c' -> reachable c'.
Proof.
  intros [tr Htr] Hrun. exists (tr ++ events). now rewrite run_app, Htr.
Qed.

(** *** Retry counting *)

Lemma open_retry (c : Client) : _retryCount (_open c) = _retryCount c.
Proof.
  destruct c as [es r ld os b rt srcs pts nid log].
  unfold _open, _close, notify. simpl.
  destruct es, rt, os; reflexivity.
Qed.

Lemma onerror_retry (c : Client) : _retryCount (onerror c) = S (_retryCount c).
Proof.
  destruct c as [es r ld os b rt srcs pts nid log].
  unfold onerror, _close, notify. simpl.
  destruct es, rt; simpl; destruct (bool_decide _); destruct os; reflexivity.
Qed.

(** Along events that do not reset it, the retry counter counts the
    transport errors. *)
Lemma run_counts_errors (tr : list Event) (c c1 : Client) :
  run tr c = Some c1 ->
  Forall (fun e => forgiving e = false) tr ->
  _retryCount c1 = (_retryCount c + errorCount tr)%nat.
Proof.
  revert c. induction tr as [|e tr IH]; intros c Hrun Hquiet; simpl in Hrun.
  - injection Hrun as <-. unfold errorCount. simpl. lia.
  - apply Forall_cons in Hquiet as [He Hquiet].
    destruct (step c e) as [c'|] eqn:Hstep; [| discriminate].
    rewrite (IH c' Hrun Hquiet). unfold errorCount.
    destruct e as [b | | es | es [d|] | es | t]; simpl in He, Hstep; try discriminate He.
    + injection Hstep as <-. unfold connect. now rewrite open_retry.
    + case_bool_decide; [| discriminate]. injection Hstep as <-. reflexivity.
    + case_bool_decide; [| discriminate]. injection Hstep as <-.
      rewrite onerror_retry. simpl. lia.
    + case_bool_decide; [| discriminate]. injection Hstep as <-.
      now rewrite open_retry.
Qed.

(** In a state without open transport and without armed timeout nothing
    happens unless the user calls [connect] or [reconnect]. *)
Lemma idle_waits (c : Client) (e : Event) :
  openSources c = [] -> pendingTimers c = [] -> manual e = false -> step c e = None.
Proof.
  intros Hsrc Htim He.
  destruct e as [b | | es | es parsed | es | t]; simpl in *; try discriminate He;
    rewrite ?Hsrc, ?Htim;
    first [ reflexivity
          | rewrite bool_decide_eq_false_2 by apply not_elem_of_nil; reflexivity ].
Qed.

(** C4, as the code has it.  From any state the client can be in: after
    ten transport errors between which no open event, no frame that
    parses and no manual [reconnect()] occurs, the client is disconnected
    (retry counter at the ceiling, no transport, no reconnect scheduled,
    status [disconnected] reported) and no event other than a manual
    [connect()] or [reconnect()] can happen, so no automatic attempt
    follows.  And a manual [reconnect()], in any state the client can be
    in, resets the retry counter to 0 and the backoff to 1000ms and runs
    the open sequence at once: it leaves the new transport open, no
    timeout armed, and reports [reconnecting]. *)
Theorem circuit_breaker (c : Client) :
  reachable c ->
  (forall tr c1 es c2,
     run tr c = Some c1 ->
     Forall (fun e => forgiving e = false) tr ->
     (9 <= errorCount tr)%nat ->
     step c1 (Error es) = Some c2 ->
     isDisconnected c2 /\
     (forall e, manual e = false -> step c2 e = None)) /\
  (reconnect c
     = _open (mkClient (_eventSource c) 0 (_lastData c) (_onStatus c) INITIAL_BACKOFF
                       (_reconnectTimeout c) (openSources c) (pendingTimers c)
                       (nextId c) (statusLog c)) /\
   _retryCount (reconnect c) = 0%nat /\
   _backoff (reconnect c) = 1000 /\
   _eventSource (reconnect c) = Some (nextId c) /\
   openSources (reconnect c) = [nextId c] /\
   pendingTimers (reconnect c) = [] /\
   (_onStatus c = true -> last (statusLog (reconnect c)) = Some reconnecting)).
Proof.
  intros Hreach. pose proof (reachable_settled c Hreach) as Hs. split.
  - intros tr c1 es c2 Hrun Hquiet Hcount Hstep.
    pose proof (run_settled tr c c1 Hs Hrun) as (Htracked1 & _).
    pose proof (run_counts_errors tr c c1 Hrun Hquiet) as Hretry.
    simpl in Hstep. case_bool_decide; [| discriminate]. injection Hstep as <-.
    destruct (onerror_outcome c1 Htracked1) as (H1 & H2 & H3 & H4 & Hcase).
    rewrite bool_decide_eq_true_2 in Hcase by (unfold MAX_RETRIES; lia).
    destruct Hcase as (H5 & H6 & _ & H8).
    split.
    + unfold isDisconnected. rewrite H1, H2, H3, H4, H5, H6.
      repeat split; auto. unfold MAX_RETRIES. lia.
    + intros e He. now apply idle_waits.
  - destruct Hs as (Htracked & _).
    match goal with |- reconnect c = _open ?x /\ _ =>
      destruct (open_fresh x Htracked) as (H1 & H2 & H3 & H4 & H5 & H6 & H7 & H8)
    end.
    split; [reflexivity |]. unfold reconnect.
    rewrite H1, H2, H4, H5, H6. repeat split; auto.
Qed.

(** The breaker on a server that refuses every connection. *)
Lemma circuit_breaker_witness :
  exists c1 c2,
    run (removelast refuseAll) initial = Some c1 /\
    step c1 (Error 19%nat) = Some c2 /\
    isDisconnected c2 /\
    step c2 (TimerFires 20%nat) = None.
Proof.
  eexists _, _. split; [vm_compute; reflexivity |]. split; [vm_compute; reflexivity |].
  assert (reachable initial) as Hreach by (exists []; reflexivity).
  match goal with |- isDisconnected ?c2 /\ _ =>
    assert (isDisconnected c2 /\ forall e, manual e = false -> step c2 e = None) as H
  end.
  { eapply (proj1 (circuit_breaker initial Hreach) (removelast refuseAll) _ 19%nat).
    - vm_compute. reflexivity.
    - repeat (constructor; [reflexivity |]). constructor.
    - vm_compute. lia.
    - vm_compute. reflexivity. }
  split; [exact (proj1 H) | exact (proj2 H (TimerFires 20%nat) eq_refl)].
Defined.

(** C4 as stated fails: "10 consecutive transport errors without any
    intervening successful frame lead to the disconnected state".  With
    a server that accepts every connection and drops it at once, ten
    transport errors occur, no frame arrives and nobody calls
    [reconnect()]; yet after the tenth error the retry counter is 1, the
    status is [reconnecting] and the next automatic attempt is scheduled
    in 1000ms: each open event has reset counter and backoff. *)
Lemma accept_then_drop_counterexample :
  errorCount acceptThenDrop = 10%nat /\
  forallb (fun e => negb (isFrame e) && negb (isReconnect e)) acceptThenDrop = true /\
  (fun c => (_retryCount c, last (statusLog c), pendingTimers c, _eventSource c))
    <$> run acceptThenDrop initial
    = Some (1%nat, Some reconnecting, [(20%nat, 1000)], None) /\
  (forall c, run acceptThenDrop initial = Some c -> ~ isDisconnected c).
Proof.
  split; [reflexivity |]. split; [vm_compute; reflexivity |].
  split; [vm_compute; reflexivity |].
  intros c Hrun (Hretry & _). vm_compute in Hrun. injection Hrun as <-.
  vm_compute in Hretry. lia.
Qed.

(** *** Backoff *)

(** C5.  From the constructor's state and a [connect()], the reopen
    scheduled by the k-th transport error in a row, for 1 <= k < 10, is
    delayed by min(1000 * 2^(k-1), 30000) milliseconds; for k = 1..7 the
    delays are 1000, 2000, 4000, 8000, 16000, 30000, 30000; and in no
    state the client can be in does a scheduled delay, or the backoff,
    exceed 30000. *)
Theorem backoff_schedule :
  (forall (k : nat) (withStatus : bool),
     (1 <= k < 10)%nat ->
     consecutiveErrors k (connect withStatus initial) ≫= scheduledDelay
     = Some (Z.min (1000 * 2 ^ (Z.of_nat k - 1)) 30000)) /\
  (forall withStatus,
     map (fun k => consecutiveErrors k (connect withStatus initial) ≫= scheduledDelay)
         (seq 1 7)
     = [Some 1000; Some 2000; Some 4000; Some 8000; Some 16000; Some 30000; Some 30000]) /\
  (forall c, reachable c ->
     Forall (fun timer => snd timer <= 30000) (pendingTimers c) /\
     _backoff c <= 30000).
Proof.
  split; [| split].
  - intros k b Hk.
    do 10 (destruct k as [|k]; [first [lia | destruct b; vm_compute; reflexivity] |]).
    lia.
  - intros b. destruct b; vm_compute; reflexivity.
  - intros c Hreach. destruct (reachable_settled c Hreach) as (_ & Htimer & Hb).
    split; [| apply Hb].
    destruct (_reconnectTimeout c) as [t|].
    + destruct Htimer as (_ & delay & -> & Hd). repeat constructor. exact Hd.
    + rewrite Htimer. constructor.
Qed.

(** The sixth error in a row is the first whose delay is capped. *)
Lemma backoff_schedule_witness :
  consecutiveErrors 6 (connect true initial) ≫= scheduledDelay = Some 30000.
Proof.
  refine (proj1 backoff_schedule 6%nat true _). lia.
Defined.

(** *** One transport, one timer *)

(** C10.  In every state the client can be in, at most one [EventSource]
    is open and at most one reconnect timeout is armed, and never both.
    [_close()] leaves none of either; [connect()], [reconnect()] and the
    expiry of the reconnect timeout, the three paths that open a
    transport, leave the new transport as the only one and no timeout
    armed; a transport error leaves no transport and at most one
    timeout. *)
Theorem one_transport_one_timer (c : Client) :
  reachable c ->
  (length (openSources c) <= 1)%nat /\
  (length (pendingTimers c) <= 1)%nat /\
  (openSources c = [] \/ pendingTimers c = []) /\
  (openSources (_close c) = [] /\ pendingTimers (_close c) = []) /\
  (forall withStatus,
     openSources (connect withStatus c) = [nextId c] /\
     pendingTimers (connect withStatus c) = []) /\
  (openSources (reconnect c) = [nextId c] /\ pendingTimers (reconnect c) = []) /\
  (forall t c', step c (TimerFires t) = Some c' ->
     openSources c' = [nextId c] /\ pendingTimers c' = []) /\
  (forall es c', step c (Error es) = Some c' ->
     openSources c' = [] /\ (length (pendingTimers c') <= 1)%nat).
Proof.
  intros Hreach. pose proof (reachable_settled c Hreach) as (Htracked & Htimer & Hb).
  pose proof Htracked as [Hsrc Htim].
  assert (length (openSources c) <= 1)%nat as Hone
    by (rewrite Hsrc; destruct (_eventSource c); simpl; lia).
  assert ((length (pendingTimers c) <= 1)%nat /\
          (openSources c = [] \/ pendingTimers c = [])) as [Htwo Hnever].
  { destruct (_reconnectTimeout c) as [t|].
    - destruct Htimer as (Hes & delay & -> & _). rewrite Hsrc, Hes. simpl. auto.
    - rewrite Htimer. simpl. split; [lia | now right]. }
  split; [exact Hone |]. split; [exact Htwo |]. split; [exact Hnever |].
  split; [| split; [| split; [| split]]].
  - destruct (close_clean c Htracked) as (_ & H2 & _ & H4 & _). now split.
  - intros b. unfold connect.
    match goal with |- openSources (_open ?x) = _ /\ _ =>
      destruct (open_fresh x Htracked) as (_ & H2 & _ & H4 & _)
    end.
    now split.
  - unfold reconnect.
    match goal with |- openSources (_open ?x) = _ /\ _ =>
      destruct (open_fresh x Htracked) as (_ & H2 & _ & H4 & _)
    end.
    now split.
  - intros t c' Hstep. simpl in Hstep.
    case_bool_decide; [| discriminate]. injection Hstep as <-.
    match goal with |- openSources (_open ?x) = _ /\ _ =>
      assert (tracked x) as Hx
    end.
    { split; [exact Hsrc |]. simpl.
      rewrite Forall_forall in Htim. rewrite Forall_forall. intros p Hp.
      apply Htim. apply list_elem_of_In in Hp. apply List.filter_In in Hp as [Hp _].
      now apply list_elem_of_In. }
    destruct (open_fresh _ Hx) as (_ & H2 & _ & H4 & _). now split.
  - intros es c' Hstep. simpl in Hstep.
    case_bool_decide; [| discriminate]. injection Hstep as <-.
    destruct (onerror_outcome c Htracked) as (_ & H2 & _ & _ & Hcase).
    split; [exact H2 |].
    destruct (bool_decide (MAX_RETRIES <= S (_retryCount c))%nat);
      destruct Hcase as (_ & -> & _); simpl; lia.
Qed.

(** The invariant on the state the tenth failed attempt of a refused
    client leaves, and on the state a manual [reconnect()] then leads to. *)
Lemma one_transport_one_timer_witness :
  exists c,
    run refuseAll initial = Some c /\
    (length (openSources c) <= 1)%nat /\
    (length (pendingTimers c) <= 1)%nat /\
    openSources (reconnect c) = [nextId c].
Proof.
  eexists. split; [vm_compute; reflexivity |].
  match goal with |- (length (openSources ?c) <= 1)%nat /\ _ =>
    assert (reachable c) as Hreach by (exists refuseAll; vm_compute; reflexivity);
    destruct (one_transport_one_timer c Hreach) as (H1 & H2 & _ & _ & _ & [H3 _] & _)
  end.
  split; [exact H1 |]. split; [exact H2 | exact H3].
Defined.

End ClientFacts.

(* ===================================================================== *)
(** * Further properties *)
(* ===================================================================== *)

(** ** Latency of the guard and of a collection *)

Section LatencyFacts.
Import Timeout Repository Spec.

(** X1.  Whatever the operation does, the guard settles, and no later than
    its timer: at the moment the operation settles if that is before the
    timer fires, and when the timer fires otherwise (also if the operation
    never settles). *)
Theorem withTimeout_latency (promise : Promise) (ms : Z) :
  exists t how,
    withTimeout promise ms = SettlesAt t how /\
    t <= timerDelay ms /\
    match promise with
    | SettlesAt t0 _ => t = Z.min t0 (timerDelay ms)
    | Pending => t = timerDelay ms
    end.
Proof.
  destruct promise as [|t0 how0].
  - eexists _, _. split; [apply withTimeout_pending |]. split; [lia | reflexivity].
  - destruct (Z_le_gt_dec t0 (timerDelay ms)) as [Hle | Hgt].
    + exists t0, how0. split; [now apply withTimeout_in_time |]. split; lia.
    + eexists _, _. split; [apply withTimeout_late; lia |]. split; lia.
Qed.

Lemma guardedAt_bound (p : Promise) :
  guardedAt p <= 1000 /\
  match p with
  | SettlesAt t0 _ => guardedAt p = Z.min t0 1000
  | Pending => guardedAt p = 1000
  end.
Proof.
  unfold guardedAt.
  destruct (withTimeout_latency p 1000) as (t & how & -> & Hle & Hshape).
  change (timerDelay 1000) with 1000 in *. split; [exact Hle |].
  destruct p; exact Hshape.
Qed.

Lemma allSettledAt_guarded (c : Collectors) (ks : list MetricKey) :
  exists t,
    allSettledAt (map (fun key => withTimeout (c key) 1000) ks) = Some t /\
    0 <= t <= 1000 /\
    (forall k, k ∈ ks -> guardedAt (c k) <= t) /\
    (t = 0 \/ exists k, k ∈ ks /\ t = guardedAt (c k)).
Proof.
  induction ks as [|key ks (u & Hu & Hrange & Hall & Hmax)].
  - exists 0. split; [reflexivity |]. split; [lia |].
    split; [intros k Hk; now apply elem_of_nil in Hk | now left].
  - pose proof (guardedAt_bound (c key)) as [Hb _].
    unfold guardedAt in Hb. simpl.
    destruct (withTimeout_settles (c key) 1000) as (t & how & Hwt).
    assert (guardedAt (c key) = t) as Ht by (unfold guardedAt; now rewrite Hwt).
    rewrite Hwt in *. rewrite Hu.
    exists (Z.max t u). split; [reflexivity |]. split; [lia |]. split.
    + intros k Hk. apply elem_of_cons in Hk as [-> | Hk].
      * rewrite Ht. lia.
      * specialize (Hall k Hk). lia.
    + destruct (Z_le_gt_dec t u) as [Hle | Hgt].
      * rewrite Z.max_r by exact Hle.
        destruct Hmax as [-> | (k & Hk & ->)]; [now left |].
        right. exists k. split; [now apply elem_of_cons; right | reflexivity].
      * rewrite Z.max_l by lia. right. exists key.
        split; [apply elem_of_cons; now left | now rewrite Ht].
Qed.

(** X2.  A collection resumes when the slowest guarded collector has
    settled and not before: never later than 1000ms after the call, at
    1000ms exactly if some collector is still pending then, and otherwise at
    the moment the last collector settles. *)
Theorem getSystemMetrics_latency (collectors : Collectors) :
  exists t,
    resumesAt collectors = Some t /\
    0 <= t <= 1000 /\
    (forall k,
       match collectors k with
       | SettlesAt tk _ => Z.min tk 1000 <= t
       | Pending => t = 1000
       end) /\
    (t = 0 \/
     exists k,
       match collectors k with
       | SettlesAt tk _ => t = Z.min tk 1000
       | Pending => t = 1000
       end).
Proof.
  destruct (allSettledAt_guarded collectors keys) as (t & Ht & Hrange & Hall & Hmax).
  exists t. split; [exact Ht |]. split; [exact Hrange |]. split.
  - intros k. specialize (Hall k (keys_all k)).
    pose proof (guardedAt_bound (collectors k)) as [_ Hshape].
    destruct (collectors k); lia.
  - destruct Hmax as [-> | (k & _ & ->)]; [now left |].
    right. exists k. pose proof (guardedAt_bound (collectors k)) as [_ Hshape].
    destruct (collectors k); exact Hshape.
Qed.

End LatencyFacts.

(** ** Results and the last-known store *)

Section ResultFacts.
Import Repository Service Spec.

(** X3.  The object a collection returns has all six keys, whatever
    fails.  A result has no [error] exactly when its status is [ok]; an
    [ok] result carries data other than [null]/[undefined], which is also
    the new store entry; any other result carries the old store entry,
    [null] in place of [undefined], and leaves the entry as it was. *)
Theorem result_invariant (collectors : Collectors) (lk : Store) :
  exists m lk',
    getSystemMetrics collectors lk = Some (m, lk') /\
    forall k, exists r,
      m k = Some r /\
      (status r = ok <-> error r = None) /\
      (status r = ok -> is_nullish (data r) = false /\ lk' k = data r) /\
      (status r <> ok ->
         data r = nullish_or (lk k) JNull /\ data r <> JUndefined /\ lk' k = lk k).
Proof.
  destruct (getSystemMetrics_at collectors lk) as (m & lk' & Hget & Hat).
  exists m, lk'. split; [exact Hget |]. intros k.
  destruct (Hat k) as [Hm Hlk]. rewrite Hm, Hlk.
  eexists. split; [reflexivity |].
  destruct (guarded (collectors k)) as [v | reason].
  - destruct (is_nullish v) eqn:Hv.
    + rewrite atKey_null by exact Hv. simpl.
      split; [split; discriminate |]. split; [discriminate |]. intros _.
      split; [reflexivity |]. split; [| reflexivity].
      unfold nullish_or. destruct (lk k); simpl; discriminate.
    + rewrite atKey_value by exact Hv. simpl.
      split; [split; reflexivity |]. split; [intros _; now split |].
      intros H. now contradiction H.
  - rewrite atKey_rejected. simpl.
    split; [split; [destruct (isTimeout reason); discriminate | discriminate] |].
    split; [destruct (isTimeout reason); discriminate |]. intros _.
    split; [reflexivity |]. split; [| reflexivity].
    unfold nullish_or. destruct (lk k); simpl; discriminate.
Qed.

(** With every collector failing on a fresh repository, all six results
    are there, without data and with an error. *)
Lemma result_invariant_witness :
  exists m lk',
    getSystemMetrics allFail initialStore = Some (m, lk') /\
    forall k, exists r, m k = Some r /\ data r = JNull /\ error r <> None.
Proof.
  destruct (result_invariant allFail initialStore) as (m & lk' & Hget & Hall).
  exists m, lk'. split; [exact Hget |]. intros k.
  destruct (Hall k) as (r & Hm & Herr & _ & Hbad).
  exists r. split; [exact Hm |].
  assert (status r <> ok) as Hne.
  { vm_compute in Hget. injection Hget as <- _.
    destruct k; vm_compute in Hm; injection Hm as <-; discriminate. }
  destruct (Hbad Hne) as (Hdata & _ & _).
  split; [rewrite Hdata; reflexivity |].
  intros Hnone. apply Hne. now apply Herr.
Defined.

(** X4.  A last-known value is never lost: once the store holds data for a
    key, it holds data for that key after any further cycles, and every
    result of those cycles for that key carries data, fresh or last known. *)
Theorem last_known_never_lost (inputs : list Collectors) (lk : Store) (k : MetricKey) :
  is_nullish (lk k) = false ->
  exists past lk',
    cycles inputs lk = Some (past, lk') /\
    is_nullish (lk' k) = false /\
    Forall (fun m => exists r, m k = Some r /\ is_nullish (data r) = false) past.
Proof.
  revert lk. induction inputs as [|c rest IH]; intros lk Hlk.
  - exists [], lk. split; [reflexivity |]. split; [exact Hlk | constructor].
  - destruct (result_invariant c lk) as (m & lk1 & Hget & Hall).
    destruct (Hall k) as (r & Hm & _ & Hok & Hbad).
    assert (is_nullish (data r) = false /\ is_nullish (lk1 k) = false) as [Hdata Hlk1].
    { destruct (decide (status r = ok)) as [Hs | Hs].
      - destruct (Hok Hs) as [Hd ->]. now split.
      - destruct (Hbad Hs) as (-> & _ & ->).
        unfold nullish_or. rewrite Hlk. now split. }
    destruct (IH lk1 Hlk1) as (past & lk' & Hcyc & Hlk' & Hpast).
    exists (m :: past), lk'. simpl. rewrite Hget, Hcyc.
    split; [reflexivity |]. split; [exact Hlk' |].
    constructor; [exists r; now split | exact Hpast].
Qed.

(** The cpu value of a first healthy cycle survives a hang and a failure. *)
Lemma last_known_never_lost_witness :
  exists m0 lk0 past lk',
    getSystemMetrics healthy initialStore = Some (m0, lk0) /\
    cycles [stuckCpu; allFail] lk0 = Some (past, lk') /\
    is_nullish (lk' cpu) = false.
Proof.
  destruct (getSystemMetrics_at healthy initialStore) as (m0 & lk0 & Hget & Hat).
  assert (is_nullish (lk0 cpu) = false) as Hdef.
  { pose proof Hget as H. vm_compute in H. injection H as _ <-. reflexivity. }
  destruct (last_known_never_lost [stuckCpu; allFail] lk0 cpu Hdef)
    as (past & lk' & Hcyc & Hlk' & _).
  exists m0, lk0, past, lk'. split; [exact Hget |]. split; [exact Hcyc | exact Hlk'].
Defined.

End ResultFacts.

(** ** Samples and failures of the service *)

Section SampleFacts.
Import Repository Service Spec.

(** X5.  Last-known data is never charted.  Every call pushes one sample
    stamped with the call's [Date.now()]; its cpu (memory) value is the
    [usage] ([percentage]) of this cycle's cpu (memory) result if that
    result is [ok], and [null] otherwise, even when the result, which the
    snapshot carries as it is, holds last-known data. *)
Theorem stale_data_not_charted
    (collectors : Collectors) (now : Z) (lk : Store) (svc : Service) :
  exists m lk' rc rm snapshot sample,
    getSystemMetrics collectors lk = Some (m, lk') /\
    m cpu = Some rc /\ m memory = Some rm /\
    cycle collectors now (lk, svc)
      = Some (Normal snapshot, (lk', pushSample sample svc)) /\
    assoc "cpu" snapshot = Some (SvMetric rc) /\
    assoc "memory" snapshot = Some (SvMetric rm) /\
    timestamp sample = now /\
    (status rc <> ok -> sample_cpu sample = JNull) /\
    (status rc = ok -> get_prop (data rc) "usage" = Normal (sample_cpu sample)) /\
    (status rm <> ok -> sample_memory sample = JNull) /\
    (status rm = ok -> get_prop (data rm) "percentage" = Normal (sample_memory sample)).
Proof.
  destruct (cycle_returns collectors now lk svc)
    as (m & lk' & rc & rm & rd & rp & cu & mp &
        Hget & Hc & Hm & _ & _ & Hcu & Hmp & Hcycle).
  exists m, lk', rc, rm. eexists _, (mkSample cu mp now).
  split; [exact Hget |]. split; [exact Hc |]. split; [exact Hm |].
  split; [exact Hcycle |]. split; [reflexivity |]. split; [reflexivity |].
  split; [reflexivity |].
  unfold okField, metricOf in Hcu, Hmp. rewrite Hc in Hcu. rewrite Hm in Hmp. simpl.
  repeat split.
  - intros Hne. rewrite bool_decide_eq_false_2 in Hcu by exact Hne. congruence.
  - intros Heq. rewrite bool_decide_eq_true_2 in Hcu by exact Heq. exact Hcu.
  - intros Hne. rewrite bool_decide_eq_false_2 in Hmp by exact Hne. congruence.
  - intros Heq. rewrite bool_decide_eq_true_2 in Hmp by exact Heq. exact Hmp.
Qed.

(** A hanging cpu collector over a known cpu value: the snapshot shows the
    known value, the sample shows nothing. *)
Lemma stale_data_not_charted_witness :
  exists snapshot sample st',
    cycle stuckCpu 5000 (cpuKnown, initial) = Some (Normal snapshot, st') /\
    snd st' = pushSample sample initial /\
    (exists err,
       assoc "cpu" snapshot
       = Some (SvMetric (mkResult degraded (JObj [("usage", JNum 42)]) err))) /\
    sample_cpu sample = JNull.
Proof.
  destruct (stale_data_not_charted stuckCpu 5000 cpuKnown initial)
    as (m & lk' & rc & rm & snapshot & sample &
        Hget & Hc & _ & Hcycle & Hsnap & _ & _ & Hstale & _).
  exists snapshot, sample, (lk', pushSample sample initial).
  split; [exact Hcycle |]. split; [reflexivity |].
  assert (exists err, rc = mkResult degraded (JObj [("usage", JNum 42)]) err) as [err ->].
  { vm_compute in Hget. injection Hget as <- _. vm_compute in Hc.
    injection Hc as <-. eexists. reflexivity. }
  split; [exists err; exact Hsnap |]. apply Hstale. discriminate.
Defined.

(** X6.  What a call of the service does when the repository's object is
    not as expected.  If the cpu or memory result is missing, or is [ok]
    without data, the call throws and the service is unchanged.  Otherwise
    the sample is pushed first: if then the disk or processes result is
    missing the call throws with the ring already advanced, and if both are
    there it returns a snapshot. *)
Theorem getCurrentMetrics_outcomes (metrics : Metrics) (now : Z) (svc : Service) :
  ((metrics cpu = None \/ metrics memory = None \/
    (exists r, (metrics cpu = Some r \/ metrics memory = Some r) /\
               status r = ok /\ is_nullish (data r) = true)) ->
   exists e, getCurrentMetrics metrics now svc = (Throw e, svc)) /\
  (forall c m,
     metrics cpu = Some c -> metrics memory = Some m ->
     (status c = ok -> is_nullish (data c) = false) ->
     (status m = ok -> is_nullish (data m) = false) ->
     exists sample,
       timestamp sample = now /\
       snd (getCurrentMetrics metrics now svc) = pushSample sample svc /\
       _historyIndex (snd (getCurrentMetrics metrics now svc)) = S (_historyIndex svc) /\
       (metrics disk = None \/ metrics processes = None ->
        fst (getCurrentMetrics metrics now svc) = Throw "TypeError") /\
       (forall d p, metrics disk = Some d -> metrics processes = Some p ->
        exists snapshot,
          fst (getCurrentMetrics metrics now svc) = Normal snapshot /\
          assoc "history" snapshot = Some (SvHistory (getHistory (pushSample sample svc))))).
Proof.
  split.
  - intros Hbad. unfold getCurrentMetrics, okField, metricOf.
    destruct (metrics cpu) as [c|] eqn:Hc; [| eauto].
    destruct (bool_decide (status c = ok)) eqn:Hcok.
    + apply bool_decide_eq_true in Hcok.
      destruct (is_nullish (data c)) eqn:Hcn.
      * destruct (data c); try discriminate Hcn; simpl; eauto.
      * destruct (get_prop_defined (data c) "usage" Hcn) as [cu ->].
        destruct (metrics memory) as [m|] eqn:Hm; [| eauto].
        destruct (bool_decide (status m = ok)) eqn:Hmok.
        -- apply bool_decide_eq_true in Hmok.
           destruct (is_nullish (data m)) eqn:Hmn.
           ++ destruct (data m); try discriminate Hmn; simpl; eauto.
           ++ exfalso. destruct Hbad as [[=] | [[=] | (r & [[= <-] | [= <-]] & _ & Hn)]];
                congruence.
        -- apply bool_decide_eq_false in Hmok. exfalso.
           destruct Hbad as [[=] | [[=] | (r & [[= <-] | [= <-]] & Hs & Hn)]]; congruence.
    + apply bool_decide_eq_false in Hcok.
      destruct (metrics memory) as [m|] eqn:Hm; [| eauto].
      destruct (bool_decide (status m = ok)) eqn:Hmok.
      * apply bool_decide_eq_true in Hmok.
        destruct (is_nullish (data m)) eqn:Hmn.
        -- destruct (data m); try discriminate Hmn; simpl; eauto.
        -- exfalso. destruct Hbad as [[=] | [[=] | (r & [[= <-] | [= <-]] & Hs & Hn)]];
             congruence.
      * apply bool_decide_eq_false in Hmok. exfalso.
        destruct Hbad as [[=] | [[=] | (r & [[= <-] | [= <-]] & Hs & Hn)]]; congruence.
  - intros c m Hc Hm Hcd Hmd.
    destruct (okField_returns metrics cpu c "usage" Hc Hcd) as [cu Hcu].
    destruct (okField_returns metrics memory m "percentage" Hm Hmd) as [mp Hmp].
    exists (mkSample cu mp now). split; [reflexivity |].
    unfold getCurrentMetrics. rewrite Hcu, Hmp. unfold metricOf. rewrite Hc, Hm.
    destruct (metrics disk) as [d|] eqn:Hd; destruct (metrics processes) as [p|] eqn:Hp;
      simpl; (split; [reflexivity |]); (split; [reflexivity |]); split.
    + intros [H | H]; discriminate H.
    + intros d' p' _ _. eexists. split; reflexivity.
    + intros _. reflexivity.
    + intros d' p' _ H. discriminate H.
    + intros _. reflexivity.
    + intros d' p' H _. discriminate H.
    + intros _. reflexivity.
    + intros d' p' H _. discriminate H.
Qed.

(** A repository object without the disk key: the call throws, and the
    ring has advanced all the same. *)
Lemma getCurrentMetrics_outcomes_witness :
  fst (getCurrentMetrics withoutDisk 1000 initial) = Throw "TypeError" /\
  _historyIndex (snd (getCurrentMetrics withoutDisk 1000 initial)) = 1%nat.
Proof.
  destruct (proj2 (getCurrentMetrics_outcomes withoutDisk 1000 initial)
              (mkResult ok (JObj [("usage", JNum 7)]) None)
              (mkResult unavailable JNull (Some "down"))
              eq_refl eq_refl (fun _ => eq_refl))
    as (sample & _ & _ & Hidx & Hthrow & _).
  - discriminate.
  - split; [apply Hthrow; now left | exact Hidx].
Defined.



End SampleFacts.

(** ** The registry and the heartbeat *)

Section RegistryFacts.
Import Manager Spec.
Context {Data : Type} (JSON_stringify : Data -> string).

Lemma calm_run_tidy (events : list (@Event Data)) (m m' : Manager) :
  tidy m -> calmRun JSON_stringify events m ->
  run JSON_stringify events m = Some m' -> tidy m'.
Proof.
  revert m. induction events as [|e rest IH]; intros m Htidy Hcalm Hrun; simpl in *.
  - now injection Hrun as <-.
  - destruct Hcalm as [He Hrest].
    destruct (step JSON_stringify m e) as [m1|] eqn:Hstep; [| discriminate].
    eapply IH; [| exact Hrest | exact Hrun].
    eapply calm_step_tidy; eauto.
Qed.

(** X8.  As long as no write throws and no response is registered while
    it is registered already, the heartbeat follows the registry: after any
    run from the constructor's state an interval is armed if and only if
    there are clients, and then it is the only one and the one the manager
    holds the handle of. *)
Theorem heartbeat_follows_registry (events : list (@Event Data)) (m : Manager) :
  calmRun JSON_stringify events initial ->
  run JSON_stringify events initial = Some m ->
  (intervals m <> [] <-> _clients m <> []) /\
  (_clients m <> [] ->
   exists id, _heartbeatInterval m = Some id /\ intervals m = [id]) /\
  (_clients m = [] -> _heartbeatInterval m = None /\ intervals m = []).
Proof.
  intros Hcalm Hrun.
  assert (tidy initial) as H0 by (split; reflexivity).
  pose proof (calm_run_tidy events initial m H0 Hcalm Hrun) as Htidy.
  split; [now apply tidy_heartbeatMatchesRegistry |].
  unfold tidy in Htidy. destruct (_clients m) as [|c cs].
  - split; [intros H; now contradiction H | intros _; exact Htidy].
  - split; [intros _; exact Htidy | discriminate].
Qed.

(** The loop of the heartbeat and of [broadcast] leaves a sublist of the
    registry. *)
Lemma forEachClient_clients (payload : string) (throws : Res -> bool) (m m' : Manager) :
  forEachClient payload throws m = Normal m' ->
  _clients m' = List.filter (fun c => negb (throws c)) (_clients m).
Proof.
  unfold forEachClient. intros Hrun.
  destruct (forOf_writeOrEvict payload throws (_clients m) m) as (m1 & Hrun1 & Hc & _).
  rewrite Hrun in Hrun1. injection Hrun1 as <-.
  now rewrite filter_not_member in Hc.
Qed.

Lemma NoDup_filter (f : Res -> bool) (l : list Res) :
  NoDup l -> NoDup (List.filter f l).
Proof.
  induction 1 as [|x l Hx _ IH]; simpl; [constructor |].
  destruct (f x); [| exact IH].
  constructor; [| exact IH].
  rewrite list_elem_of_In, List.filter_In, <- list_elem_of_In. tauto.
Qed.

Lemma filter_length_le (f : Res -> bool) (l : list Res) :
  (length (List.filter f l) <= length l)%nat.
Proof. induction l as [|x l IH]; simpl; [lia |]. destruct (f x); simpl; lia. Qed.

(** One event, seen from the registry. *)
Lemma step_clients (m m' : Manager) (e : @Event Data) :
  step JSON_stringify m e = Some m' ->
  match e with
  | AddClient res => _clients m' = Set_add res (_clients m)
  | Close res => _clients m' = Set_delete res (_clients m)
  | Broadcast _ throws | Tick throws =>
      _clients m' = List.filter (fun c => negb (throws c)) (_clients m)
  end.
Proof.
  destruct e as [res | res | d throws | throws]; simpl; intros Hstep.
  - injection Hstep as <-. unfold addClient. simpl.
    destruct (bool_decide _); reflexivity.
  - case_bool_decide; [| discriminate]. injection Hstep as <-.
    unfold onClose, with_clients, _stopHeartbeat. simpl.
    destruct (bool_decide _); simpl; [| reflexivity].
    destruct (_heartbeatInterval m); reflexivity.
  - unfold broadcast in Hstep.
    destruct (forEachClient (payloadOf JSON_stringify d) throws m) as [m1|] eqn:Hrun;
      [| discriminate].
    injection Hstep as <-. now apply forEachClient_clients in Hrun.
  - destruct (intervals m); [discriminate |]. unfold heartbeat in Hstep.
    destruct (forEachClient (":heartbeat" +:+ LF +:+ LF) throws m) as [m1|] eqn:Hrun;
      [| discriminate].
    injection Hstep as <-. now apply forEachClient_clients in Hrun.
Qed.

Lemma run_registry (events : list (@Event Data)) (m m' : Manager) :
  NoDup (_clients m) ->
  run JSON_stringify events m = Some m' ->
  NoDup (_clients m') /\
  (forall c, c ∈ _clients m' -> c ∈ _clients m \/ AddClient c ∈ events) /\
  (length (_clients m') <= length (_clients m) + registrations events)%nat.
Proof.
  revert m. induction events as [|e rest IH]; intros m Hnd Hrun; simpl in Hrun.
  - injection Hrun as <-. split; [exact Hnd |]. split; [now left |].
    unfold registrations. simpl. lia.
  - destruct (step JSON_stringify m e) as [m1|] eqn:Hstep; [| discriminate].
    pose proof (step_clients m m1 e Hstep) as Hc.
    assert (NoDup (_clients m1) /\
            (forall c, c ∈ _clients m1 -> c ∈ _clients m \/ AddClient c = e) /\
            (length (_clients m1)
             <= length (_clients m) + registrations [e])%nat) as (Hnd1 & Hin1 & Hlen1).
    { destruct e as [res | res | d throws | throws]; rewrite Hc; unfold registrations; simpl.
      - unfold Set_add. case_bool_decide as Hmem.
        + split; [exact Hnd |]. split; [now left | lia].
        + split; [apply NoDup_app; split; [exact Hnd |]; split;
                    [intros x Hx Hx'; apply list_elem_of_singleton in Hx'; now subst
                    | apply NoDup_singleton] |].
          split; [| rewrite length_app; simpl; lia].
          intros c Hcin. apply elem_of_app in Hcin as [Hcin | Hcin]; [now left |].
          apply list_elem_of_singleton in Hcin. subst. now right.
      - split; [now apply NoDup_filter |]. split.
        + intros c Hcin. left. apply list_elem_of_In in Hcin.
          apply List.filter_In in Hcin as [Hcin _]. now apply list_elem_of_In.
        + pose proof (filter_length_le (fun y => negb (bool_decide (y = res))) (_clients m)).
          unfold Set_delete. lia.
      - split; [now apply NoDup_filter |]. split.
        + intros c Hcin. left. apply list_elem_of_In in Hcin.
          apply List.filter_In in Hcin as [Hcin _]. now apply list_elem_of_In.
        + pose proof (filter_length_le (fun c => negb (throws c)) (_clients m)). lia.
      - split; [now apply NoDup_filter |]. split.
        + intros c Hcin. left. apply list_elem_of_In in Hcin.
          apply List.filter_In in Hcin as [Hcin _]. now apply list_elem_of_In.
        + pose proof (filter_length_le (fun c => negb (throws c)) (_clients m)). lia. }
    destruct (IH m1 Hnd1 Hrun) as (Hnd' & Hin' & Hlen').
    split; [exact Hnd' |]. split.
    + intros c Hcin. destruct (Hin' c Hcin) as [H | H].
      * destruct (Hin1 c H) as [H1 | H1]; [now left |].
        right. rewrite H1. apply elem_of_cons. now left.
      * right. apply elem_of_cons. now right.
    + assert (registrations (e :: rest) = registrations [e] + registrations rest)%nat as ->.
      { unfold registrations. simpl. destruct e; simpl; lia. }
      lia.
Qed.

(** X9.  The registry is a set of responses that were registered: after
    any run from the constructor's state no response is in it twice, every
    response in it was passed to [addClient] during the run, and
    [clientCount] is at most the number of [addClient] calls. *)
Theorem registry_is_a_set (events : list (@Event Data)) (m : Manager) :
  run JSON_stringify events initial = Some m ->
  NoDup (_clients m) /\
  (forall c, c ∈ _clients m -> AddClient c ∈ events) /\
  (clientCount m <= registrations events)%nat.
Proof.
  intros Hrun.
  destruct (run_registry events initial m (NoDup_nil_2 (A:=Res)) Hrun) as (Hnd & Hin & Hlen).
  split; [exact Hnd |]. split.
  - intros c Hc. destruct (Hin c Hc) as [H | H]; [| exact H].
    simpl in H. now apply elem_of_nil in H.
  - unfold clientCount. simpl in Hlen. lia.
Qed.

(** X10.  A heartbeat tick writes the comment frame [:heartbeat] followed
    by two line feeds, once, to every registered connection in registration
    order; the connections whose write throws are removed, the others stay;
    the tick completes normally and changes neither the interval nor its
    handle. *)
Theorem heartbeat_fan_out (throws : Res -> bool) (m : Manager) :
  exists m',
    heartbeat throws m = Normal m' /\
    writeLog m'
      = writeLog m
        ++ map (fun c => mkWrite c (":heartbeat" +:+ LF +:+ LF) (negb (throws c)))
               (_clients m) /\
    _clients m' = List.filter (fun c => negb (throws c)) (_clients m) /\
    _heartbeatInterval m' = _heartbeatInterval m /\
    intervals m' = intervals m.
Proof.
  unfold heartbeat, forEachClient.
  destruct (forOf_writeOrEvict (":heartbeat" +:+ LF +:+ LF) throws (_clients m) m)
    as (m' & Hrun & Hc & Hlog & Hhb & Hint & _).
  rewrite filter_not_member in Hc.
  exists m'. repeat split; assumption.
Qed.

End RegistryFacts.

Section RegistryRuns.
Import Manager Spec.

(** Two clients come, are served and go: the heartbeat has stopped. *)
Lemma heartbeat_follows_registry_witness :
  exists m,
    run (fun s : string => s) quietDay initial = Some m /\
    _clients m = [] /\ intervals m = [].
Proof.
  eexists. split; [vm_compute; reflexivity |].
  match goal with |- _clients ?m = [] /\ _ =>
    assert (run (fun s : string => s) quietDay initial = Some m) as Hrun
      by (vm_compute; reflexivity);
    assert (calmRun (fun s : string => s) quietDay initial) as Hcalm
  end.
  { vm_compute. repeat split; auto; intros H; inversion H; subst;
      repeat match goal with H : _ ∈ _ |- _ => inversion H; clear H; subst end. }
  destruct (heartbeat_follows_registry (fun s : string => s) quietDay _ Hcalm Hrun)
    as (_ & _ & Hempty).
  split; [reflexivity | exact (proj2 (Hempty eq_refl))].
Defined.

(** After the same day nobody is registered, of the two that registered. *)
Lemma registry_is_a_set_witness :
  exists m,
    run (fun s : string => s) quietDay initial = Some m /\
    (clientCount m <= 2)%nat.
Proof.
  eexists. split; [vm_compute; reflexivity |].
  match goal with |- (clientCount ?m <= 2)%nat =>
    assert (run (fun s : string => s) quietDay initial = Some m) as Hrun
      by (vm_compute; reflexivity)
  end.
  exact (proj2 (proj2 (registry_is_a_set (fun s : string => s) quietDay _ Hrun))).
Defined.

End RegistryRuns.

(** ** The server: interval tick and routes *)

Section ServerFacts.
Import Repository Service Manager Server Spec.
Context (JSON_stringify : Snapshot -> string).

Lemma addClient_clients (res : Res) (m : Manager) :
  _clients (addClient res m) = Set_add res (_clients m).
Proof. unfold addClient. simpl. destruct (bool_decide _); reflexivity. Qed.



(** X13.  The stream route.  Opening registers the response.  When the
    first snapshot is there it is written to that response and to no
    other, in the frame [broadcast] uses; if that write throws, nothing
    happens: the response stays registered, and the heartbeat is as it
    was.  Serving the first snapshot takes one more sample into the
    history. *)
Theorem stream_first_frame (res : Res) (collectors : Collectors) (now : Z)
    (throws : Res -> bool) (s : Server) :
  (res ∈ _clients (sseManager (streamOpen res s))) /\
  exists snapshot s',
    streamThen JSON_stringify res collectors now throws s = Some s' /\
    fst <$> cycle collectors now (repository s, service s) = Some (Normal snapshot) /\
    writeLog (sseManager s')
      = writeLog (sseManager s)
        ++ [mkWrite res (payloadOf JSON_stringify snapshot) (negb (throws res))] /\
    _clients (sseManager s') = _clients (sseManager s) /\
    intervals (sseManager s') = intervals (sseManager s) /\
    _heartbeatInterval (sseManager s') = _heartbeatInterval (sseManager s) /\
    _historyIndex (service s') = S (_historyIndex (service s)).
Proof.
  split.
  - unfold streamOpen. cbn [sseManager]. rewrite addClient_clients.
    unfold Set_add. case_bool_decide as Hmem; [exact Hmem |].
    apply elem_of_app. right. apply elem_of_cons. now left.
  - destruct (cycle_returns collectors now (repository s) (service s))
      as (m & lk' & rc & rm & rd & rp & cu & mp & _ & _ & _ & _ & _ & _ & _ & Hcycle).
    unfold streamThen. rewrite Hcycle. unfold write.
    eexists _, _. split; [reflexivity |]. repeat split; reflexivity.
Qed.

End ServerFacts.

(** ** The subscriber and its page *)

Section PageFacts.
Import Client View Spec.

Lemma open_lastData (c : Client) : _lastData (_open c) = _lastData c.
Proof.
  destruct c as [es r ld os b rt srcs pts nid log].
  unfold _open, _close, notify. simpl. destruct es, rt, os; reflexivity.
Qed.

Lemma onerror_lastData (c : Client) : _lastData (onerror c) = _lastData c.
Proof.
  destruct c as [es r ld os b rt srcs pts nid log].
  unfold onerror, _close, notify. simpl.
  destruct es, rt; simpl; destruct (bool_decide _); destruct os; reflexivity.
Qed.

Lemma run_lastData (events : list Event) (c c' : Client) :
  run events c = Some c' -> _lastData c' = lastParsed events (_lastData c).
Proof.
  revert c. induction events as [|e rest IH]; intros c Hrun; simpl in Hrun.
  - now injection Hrun as <-.
  - destruct (step c e) as [c1|] eqn:Hstep; [| discriminate].
    rewrite (IH c1 Hrun). unfold lastParsed. simpl. f_equal.
    destruct e as [b | | es | es [d|] | es | t]; simpl in Hstep.
    + injection Hstep as <-. unfold connect. now rewrite open_lastData.
    + injection Hstep as <-. unfold reconnect. now rewrite open_lastData.
    + case_bool_decide; [| discriminate]. injection Hstep as <-.
      unfold onopen, notify. simpl. destruct (_onStatus c); reflexivity.
    + case_bool_decide; [| discriminate]. injection Hstep as <-. reflexivity.
    + case_bool_decide; [| discriminate]. injection Hstep as <-. reflexivity.
    + case_bool_decide; [| discriminate]. injection Hstep as <-. apply onerror_lastData.
    + case_bool_decide; [| discriminate]. injection Hstep as <-. now rewrite open_lastData.
Qed.

(** X14.  [lastData] is the data of the last frame that parsed, [null]
    before the first one: malformed frames, transport errors, reopens,
    the circuit breaker and manual reconnects leave it alone. *)
Theorem lastData_is_last_frame (events : list Event) (c : Client) :
  run events initial = Some c ->
  lastData c = lastParsed events JNull.
Proof. intros Hrun. exact (run_lastData events initial c Hrun). Qed.

(** After a good frame, a malformed one and the loss of the transport,
    [lastData] is the good frame. *)
Lemma lastData_is_last_frame_witness :
  exists c, run twoFrames initial = Some c /\ lastData c = JNum 1.
Proof.
  eexists. split; [vm_compute; reflexivity |].
  match goal with |- lastData ?c = _ =>
    exact (lastData_is_last_frame twoFrames c eq_refl)
  end.
Defined.

(** X15.  [connect()] is not [reconnect()]: called on a client whose
    circuit breaker has tripped it opens a transport but keeps the retry
    counter, so that the first transport error disconnects the client
    again, with no reopen scheduled. *)
Theorem connect_keeps_the_breaker_tripped
    (c c' : Client) (withStatus : bool) (es : SourceId) :
  reachable c ->
  isDisconnected c ->
  step (connect withStatus c) (Error es) = Some c' ->
  _eventSource (connect withStatus c) = Some (nextId c) /\
  (MAX_RETRIES <= _retryCount (connect withStatus c))%nat /\
  isDisconnected c'.
Proof.
  intros Hreach (Hretry & _) Hstep.
  pose proof (reachable_settled c Hreach) as (Htracked & _ & Hb).
  set (c0 := mkClient (_eventSource c) (_retryCount c) (_lastData c) withStatus
                      (_backoff c) (_reconnectTimeout c) (openSources c)
                      (pendingTimers c) (nextId c) (statusLog c)).
  assert (tracked c0) as Htracked0 by exact Htracked.
  destruct (open_fresh c0 Htracked0) as (H1 & _ & _ & _ & H5 & _).
  assert (settled (connect withStatus c)) as (Htracked1 & _)
    by (apply open_settled; [exact Htracked0 | exact Hb]).
  change (connect withStatus c) with (_open c0) in *.
  split; [exact H1 |]. split; [rewrite H5; exact Hretry |].
  simpl in Hstep. case_bool_decide; [| discriminate]. injection Hstep as <-.
  destruct (onerror_outcome (_open c0) Htracked1) as (E1 & E2 & E3 & E4 & Hcase).
  rewrite bool_decide_eq_true_2 in Hcase by (rewrite H5; simpl; lia).
  destruct Hcase as (E5 & E6 & _ & E8).
  unfold isDisconnected. rewrite E1, E2, E3, E4, E5, E6, H5.
  repeat split; auto; simpl; lia.
Qed.

(** A refused client that is connected anew instead of reconnected. *)
Lemma connect_keeps_the_breaker_tripped_witness :
  exists c c',
    run refuseAll initial = Some c /\
    step (connect true c) (Error 20%nat) = Some c' /\
    isDisconnected c'.
Proof.
  let refused := eval vm_compute in (run refuseAll initial) in
  match refused with
  | Some ?c =>
      exists c; eexists; split; [vm_compute; reflexivity |];
      split; [vm_compute; reflexivity |];
      refine (proj2 (proj2 (connect_keeps_the_breaker_tripped c _ true 20%nat _ _ _)))
  end.
  - exists refuseAll. vm_compute. reflexivity.
  - vm_compute. repeat split; auto.
  - vm_compute. reflexivity.
Defined.

Lemma classList_add_has (c : string) (classes : list string) :
  In c (classList_add c classes).
Proof.
  unfold classList_add. case_bool_decide as Hmem.
  - now apply list_elem_of_In.
  - apply in_or_app. right. now left.
Qed.

Lemma classList_remove_has_not (c : string) (classes : list string) :
  ~ In c (classList_remove c classes).
Proof.
  unfold classList_remove. intros Hin. apply List.filter_In in Hin as (_ & Hneq).
  now rewrite String.eqb_refl in Hneq.
Qed.

(** The view after the last call of the status callback. *)
Lemma viewOf_last (dot0 : list string) (text0 : string) (c : Client) (s : ConnStatus) :
  last (statusLog c) = Some s ->
  (In "visible" (bannerClasses (viewOf dot0 text0 c)) <-> s = disconnected) /\
  (statusText (viewOf dot0 text0 c) = "DISCONNECTED" <-> s = disconnected) /\
  (statusText (viewOf dot0 text0 c) = "ONLINE" <-> s = connected).
Proof.
  intros Hlast. apply last_Some in Hlast as (log & Hlog).
  unfold viewOf. rewrite Hlog, fold_left_app. simpl.
  set (v := fold_left _ log _).
  pose proof (classList_add_has "visible" (bannerClasses v)) as Hadd.
  pose proof (classList_remove_has_not "visible" (bannerClasses v)) as Hrem.
  destruct s; simpl; repeat split; intros; try easy.
Qed.

Lemma reported_step (c c' : Client) (e : Event) :
  isConnect e = false ->
  settled c -> reported c ->
  step c e = Some c' ->
  reported c'.
Proof.
  intros Hnot (Htracked & Htimer & Hb) (Hon & s & Hlast & Hs) Hstep.
  assert (forall es, (es ∈ openSources c) -> exists es', _eventSource c = Some es') as Hsource.
  { intros es Hin. destruct Htracked as (Hopen & _). rewrite Hopen in Hin.
    destruct (_eventSource c) as [es'|]; [now exists es' | inversion Hin]. }
  assert (forall es, (es ∈ openSources c) -> s <> disconnected) as Hlive.
  { intros es Hin ->. destruct Hs as (_ & _ & _ & Hnil & _).
    rewrite Hnil in Hin. inversion Hin. }
  destruct e as [b | | es | es [d|] | es | t]; simpl in Hstep; [discriminate | | | | | |].
  - injection Hstep as <-. unfold reconnect.
    set (c0 := mkClient _ _ _ _ _ _ _ _ _ _).
    assert (tracked c0) as Htracked0 by exact Htracked.
    destruct (open_fresh c0 Htracked0) as (_ & _ & _ & _ & H5 & _ & H7 & H8).
    split; [rewrite H7; exact Hon |].
    exists reconnecting. split; [apply H8; exact Hon |].
    rewrite H5. simpl. unfold MAX_RETRIES. lia.
  - case_bool_decide as Hin; [| discriminate]. injection Hstep as <-.
    destruct (notify_fields connected
                (mkClient (_eventSource c) 0 (_lastData c) (_onStatus c)
                          INITIAL_BACKOFF (_reconnectTimeout c) (openSources c)
                          (pendingTimers c) (nextId c) (statusLog c)))
      as (N1 & N2 & _ & N4 & _ & _ & _ & _ & _ & N10).
    unfold onopen. split; [rewrite N4; exact Hon |].
    exists connected. split; [apply N10; exact Hon |].
    rewrite N1, N2. simpl. split; [exact (Hsource es Hin) | reflexivity].
  - case_bool_decide as Hin; [| discriminate]. injection Hstep as <-.
    split; [exact Hon |]. exists s. split; [exact Hlast |].
    pose proof (Hlive es Hin) as Hnd.
    destruct s; simpl; [tauto | unfold MAX_RETRIES; lia | congruence].
  - case_bool_decide as Hin; [| discriminate]. injection Hstep as <-.
    split; [exact Hon |]. exists s. split; [exact Hlast | exact Hs].
  - case_bool_decide as Hin; [| discriminate]. injection Hstep as <-.
    destruct (onerror_outcome c Htracked) as (E1 & E2 & E3 & E4 & Hcase).
    split; [rewrite E4; exact Hon |].
    case_bool_decide as Hmax.
    + destruct Hcase as (E5 & E6 & _ & E8).
      exists disconnected. split; [apply E8; exact Hon |].
      unfold isDisconnected. rewrite E1, E2, E3, E4, E5, E6.
      repeat split; auto.
    + destruct Hcase as (_ & _ & _ & E8).
      exists reconnecting. split; [apply E8; exact Hon |].
      rewrite E3. lia.
  - case_bool_decide as Hin; [| discriminate]. injection Hstep as <-.
    set (c0 := mkClient _ _ _ _ _ _ _ _ _ _).
    assert (tracked c0) as Htracked0.
    { destruct Htracked as (Hopen & Hall). split; [exact Hopen |].
      unfold c0. simpl. apply List.Forall_forall. intros p Hp.
      apply List.filter_In in Hp as (Hp & _).
      rewrite List.Forall_forall in Hall. now apply Hall. }
    destruct (open_fresh c0 Htracked0) as (_ & _ & _ & _ & H5 & _ & H7 & H8).
    split; [rewrite H7; exact Hon |].
    exists reconnecting. split; [apply H8; exact Hon |].
    rewrite H5. simpl.
    assert (pendingTimers c <> []) as Hpending.
    { intros Hnil. rewrite Hnil in Hin. inversion Hin. }
    destruct s.
    + destruct Hs as ((es & Hes) & _).
      destruct (_reconnectTimeout c) as [t'|].
      * destruct Htimer as (Hnone & _). congruence.
      * contradiction.
    + exact Hs.
    + destruct Hs as (_ & _ & _ & _ & Hnil & _). contradiction.
Qed.

Lemma reported_run (events : list Event) (c c' : Client) :
  Forall (fun e => isConnect e = false) events ->
  settled c -> reported c ->
  run events c = Some c' ->
  reported c'.
Proof.
  revert c. induction events as [|e rest IH]; intros c Hall Hsettled Hrep Hrun;
    simpl in Hrun.
  - now injection Hrun as <-.
  - destruct (step c e) as [c1|] eqn:Hstep; [| discriminate].
    apply Forall_cons in Hall as (He & Hrest).
    apply (IH c1 Hrest); [| | exact Hrun].
    + exact (step_settled c c1 e Hsettled Hstep).
    + exact (reported_step c c1 e He Hsettled Hrep Hstep).
Qed.

(** X16.  On the page of main.js the reconnect banner is visible exactly
    when the client is disconnected (breaker tripped, no transport, no
    timeout armed), the status text reads DISCONNECTED exactly then, and
    it reads ONLINE only while a transport is held and no error has been
    counted: whatever the browser's events and the clicks on the banner. *)
Theorem banner_iff_disconnected
    (dot0 : list string) (text0 : string) (events : list Event) (c : Client) :
  Forall (fun e => isConnect e = false) events ->
  mainRun events = Some c ->
  (In "visible" (bannerClasses (viewOf dot0 text0 c)) <-> isDisconnected c) /\
  (statusText (viewOf dot0 text0 c) = "DISCONNECTED" <-> isDisconnected c) /\
  (statusText (viewOf dot0 text0 c) = "ONLINE" ->
   (exists es, _eventSource c = Some es) /\ _retryCount c = 0%nat).
Proof.
  intros Hall Hrun. unfold mainRun in Hrun.
  change (run (Connect true :: events) initial)
    with (run events (connect true initial)) in Hrun.
  assert (settled (connect true initial)) as Hsettled0.
  { apply (step_settled initial _ (Connect true) initial_settled). reflexivity. }
  assert (reported (connect true initial)) as Hrep0.
  { split; [reflexivity |]. exists reconnecting. split; [reflexivity |].
    vm_compute. lia. }
  destruct (reported_run events _ c Hall Hsettled0 Hrep0 Hrun) as (Hon & s & Hlast & Hs).
  destruct (viewOf_last dot0 text0 c s Hlast) as (Hbanner & Htext & Honline).
  assert (isDisconnected c <-> s = disconnected) as Hiff.
  { split.
    - intros (Hretry & _). destruct s; [| | reflexivity].
      + destruct Hs as (_ & Hzero). rewrite Hzero in Hretry.
        unfold MAX_RETRIES in Hretry. lia.
      + lia.
    - intros ->. exact Hs. }
  split; [now rewrite Hbanner, Hiff |]. split; [now rewrite Htext, Hiff |].
  intros Htxt. apply Honline in Htxt. subst s. exact Hs.
Qed.

(** The page of a refused client shows the banner. *)
Lemma banner_iff_disconnected_witness :
  exists c,
    mainRun (tail refuseAll) = Some c /\
    In "visible" (bannerClasses (viewOf [] "" c)).
Proof.
  let refused := eval vm_compute in (mainRun (tail refuseAll)) in
  match refused with
  | Some ?c =>
      exists c; split; [vm_compute; reflexivity |];
      refine (proj2 (proj1 (banner_iff_disconnected [] "" (tail refuseAll) c _ _)) _)
  end.
  - apply (bool_decide_unpack _). vm_compute. exact I.
  - vm_compute. reflexivity.
  - vm_compute. repeat split; auto.
Defined.

End PageFacts.

(** ** The adapters *)

Section CpuFacts.
Import Repository Service NodeNative Spec.
Context (usagePercent : Z -> Z -> JsValue).

Lemma getCpuUsage_baseline (cpus : list CpuTimes) (a : Adapter) :
  _prevCpuTicks (snd (getCpuUsage usagePercent cpus a))
  = match cpus with
    | [] => _prevCpuTicks a
    | _ => Some (sumTicks cpus)
    end.
Proof.
  unfold getCpuUsage. destruct cpus as [|c rest]; [reflexivity |].
  destruct (_prevCpuTicks a) as [prev|]; [| reflexivity].
  destruct (_ =? 0); reflexivity.
Qed.

Lemma afterReadings_baseline (readings : list (list CpuTimes)) (a : Adapter) :
  _prevCpuTicks (afterReadings usagePercent readings a) = None
  <-> _prevCpuTicks a = None /\ noCores readings.
Proof.
  revert a. induction readings as [|cpus rest IH]; intros a.
  - simpl. split; [intros H; split; [exact H | constructor] | tauto].
  - change (afterReadings usagePercent (cpus :: rest) a)
      with (afterReadings usagePercent rest (snd (getCpuUsage usagePercent cpus a))).
    rewrite IH, getCpuUsage_baseline. unfold noCores.
    destruct cpus as [|c cs].
    + split.
      * intros (H1 & H2). split; [exact H1 | now constructor].
      * intros (H1 & H2). apply Forall_cons in H2 as (_ & H2). now split.
    + split.
      * intros (H1 & _). discriminate.
      * intros (_ & H2). apply Forall_cons in H2 as (H2 & _). discriminate.
Qed.

Lemma getCpuUsage_null (cpus : list CpuTimes) (a : Adapter) :
  is_nullish (fst (getCpuUsage usagePercent cpus a)) = true
  <-> cpus = [] \/ _prevCpuTicks a = None.
Proof.
  unfold getCpuUsage. destruct cpus as [|c rest].
  - simpl. tauto.
  - destruct (_prevCpuTicks a) as [prev|].
    + destruct (_ =? 0); simpl; split; try discriminate;
        intros [H | H]; discriminate.
    + simpl. split; [now right | reflexivity].
Qed.

(** X17.  [getCpuUsage()] returns [null] exactly when [os.cpus()] lists
    no core, or when no earlier call on this adapter saw one: an empty
    reading does not seed the baseline, and once a baseline exists every
    non-empty reading yields a usage. *)
Theorem getCpuUsage_null_iff (readings : list (list CpuTimes)) (cpus : list CpuTimes) :
  is_nullish
    (fst (getCpuUsage usagePercent cpus (afterReadings usagePercent readings initial)))
  = true
  <-> cpus = [] \/ noCores readings.
Proof.
  rewrite getCpuUsage_null, afterReadings_baseline. simpl. tauto.
Qed.

(** X18.  Two readings in a row with the same total of ticks give a usage
    of 0: the quotient by the difference of the totals is not taken. *)
Theorem same_ticks_give_zero (first second : list CpuTimes) (a : Adapter) :
  first <> [] -> second <> [] ->
  ticks_total (sumTicks second) = ticks_total (sumTicks first) ->
  fst (getCpuUsage usagePercent second (snd (getCpuUsage usagePercent first a)))
  = JObj [("usage", JNum 0)].
Proof.
  intros Hfirst Hsecond Hsame.
  pose proof (getCpuUsage_baseline first a) as Hbase.
  destruct first as [|c1 r1]; [contradiction |].
  unfold getCpuUsage at 1. destruct second as [|c2 r2]; [contradiction |].
  rewrite Hbase. cbn [ticks_total]. rewrite Hsame, Z.sub_diag. reflexivity.
Qed.


End CpuFacts.

Section CpuRuns.
Import NodeNative Spec.

(** A second reading of the same counters. *)
Lemma same_ticks_give_zero_witness :
  fst (getCpuUsage (fun _ _ => JNum 50) twoCores
         (snd (getCpuUsage (fun _ _ => JNum 50) twoCores initial)))
  = JObj [("usage", JNum 0)].
Proof.
  apply (same_ticks_give_zero (fun _ _ => JNum 50) twoCores twoCores initial);
    [discriminate | discriminate | reflexivity].
Defined.

End CpuRuns.

Section DiskFacts.
Import SystemInformation Spec.
Context {Float : Type} (round2 : Float -> Float).

Lemma mounted_sized (disks : list (@FsSize Float)) :
  Forall (fun m => 0 < m_size m) (mounted round2 disks).
Proof.
  unfold mounted. apply List.Forall_forall. intros m Hin.
  apply List.in_map_iff in Hin as (d & <- & Hd).
  apply List.filter_In in Hd as (_ & Hsize). simpl. lia.
Qed.

Lemma diskCalls_cons (now : Z) (fetched : Completion (list FsSize))
    (rest : list (Z * Completion (list FsSize))) (cache : DiskCache) :
  fst (diskCalls round2 ((now, fetched) :: rest) cache)
  = fst (getDiskUsage round2 now fetched cache)
      :: fst (diskCalls round2 rest (snd (getDiskUsage round2 now fetched cache))).
Proof.
  simpl. destruct (getDiskUsage round2 now fetched cache) as [result cache'].
  simpl. destruct (diskCalls round2 rest cache'). reflexivity.
Qed.

(** What a call returns is what the cache still vouches for, or what this
    call fetched. *)
Lemma diskCalls_source (calls : list (Z * Completion (list FsSize))) (cache : DiskCache)
    (i : nat) (now : Z) (fetched : Completion (list FsSize)) (data : list Mounted) :
  calls !! i = Some (now, fetched) ->
  fst (diskCalls round2 calls cache) !! i = Some (Some data) ->
  (exists j now_j disks,
     (j <= i)%nat /\ calls !! j = Some (now_j, Normal disks) /\
     data = mounted round2 disks /\ now - now_j < 5000) \/
  (cache_data cache = Some data /\ now - cache_timestamp cache < 5000).
Proof.
  revert cache i. induction calls as [|[now0 fetched0] rest IH]; intros cache i Hcall Hres.
  - discriminate.
  - rewrite diskCalls_cons in Hres. destruct i as [|i]; simpl in Hcall, Hres.
    + injection Hcall as -> ->. injection Hres as Hres.
      unfold getDiskUsage in Hres.
      destruct (cache_data cache) as [old|] eqn:Hdata.
      * destruct (Z.ltb_spec (now - cache_timestamp cache) 5000) as [Hlt | Hge].
        -- simpl in Hres. injection Hres as <-. right. now split.
        -- destruct fetched as [disks | e]; simpl in Hres; [| discriminate].
           injection Hres as <-. left. exists 0%nat, now, disks.
           repeat split; [lia | lia].
      * destruct fetched as [disks | e]; simpl in Hres; [| discriminate].
        injection Hres as <-. left. exists 0%nat, now, disks.
        repeat split; [lia | lia].
    + destruct (IH _ i Hcall Hres) as [(j & now_j & disks & Hj & Hcj & Hd & Hfresh) | (Hd & Hfresh)].
      * left. exists (S j), now_j, disks. repeat split; [lia | exact Hcj | exact Hd | exact Hfresh].
      * unfold getDiskUsage in Hd, Hfresh.
        destruct (cache_data cache) as [old|] eqn:Hdata.
        -- destruct (Z.ltb_spec (now0 - cache_timestamp cache) 5000) as [Hlt | Hge].
           ++ right. simpl in Hd, Hfresh. rewrite <- Hd. now split.
           ++ destruct fetched0 as [disks | e]; simpl in Hd, Hfresh.
              ** left. exists 0%nat, now0, disks. injection Hd as <-.
                 repeat split; [lia | exact Hfresh].
              ** right. rewrite <- Hd. now split.
        -- destruct fetched0 as [disks | e]; simpl in Hd, Hfresh.
           ++ left. exists 0%nat, now0, disks. injection Hd as <-.
              repeat split; [lia | exact Hfresh].
           ++ rewrite Hdata in Hd. discriminate.
Qed.

(** X20.  What [getDiskUsage()] returns is never older than five seconds:
    an array it returns is the outcome of a fetch made by this call or by
    an earlier one less than 5000ms before, with the partitions without
    size left out. *)
Theorem disk_data_is_fresh
    (calls : list (Z * Completion (list FsSize)))
    (i : nat) (now : Z) (fetched : Completion (list FsSize)) (data : list Mounted) :
  calls !! i = Some (now, fetched) ->
  fst (diskCalls round2 calls initial) !! i = Some (Some data) ->
  exists j now_j disks,
    (j <= i)%nat /\ calls !! j = Some (now_j, Normal disks) /\
    data = mounted round2 disks /\ now - now_j < 5000 /\
    Forall (fun m => 0 < m_size m) data.
Proof.
  intros Hcall Hres.
  destruct (diskCalls_source calls initial i now fetched data Hcall Hres)
    as [(j & now_j & disks & Hj & Hcj & Hd & Hfresh) | (Hd & _)].
  - exists j, now_j, disks. repeat split; try assumption.
    rewrite Hd. apply mounted_sized.
  - discriminate.
Qed.

End DiskFacts.

Section DiskRuns.
Import SystemInformation Spec.

(** The call at second 3 is answered from the fetch at second 1. *)
Lemma disk_data_is_fresh_witness :
  exists j now_j disks,
    (j <= 1)%nat /\ diskDay !! j = Some (now_j, Normal disks) /\
    [mkMounted "/dev/sda1" "/" "ext4" 1000 400 600 40] = mounted id disks /\
    3000 - now_j < 5000 /\
    Forall (fun m => 0 < m_size m) [mkMounted "/dev/sda1" "/" "ext4" 1000 400 600 40].
Proof.
  exact (disk_data_is_fresh id diskDay 1 3000 (Throw "EIO")
           [mkMounted "/dev/sda1" "/" "ext4" 1000 400 600 40] eq_refl eq_refl).
Defined.

End DiskRuns.

Section UptimeFacts.
Import NodeNative Spec.

Lemma append_cons (c : Ascii.ascii) (s t : string) :
  String c s +:+ t = String c (s +:+ t).
Proof. reflexivity. Qed.

Lemma append_assoc (s t u : string) : (s +:+ t) +:+ u = s +:+ (t +:+ u).
Proof.
  induction s as [|c s IH]; [reflexivity |].
  rewrite !append_cons. now rewrite IH.
Qed.

Lemma pretty_N_go_digits (x : N) (s : string) :
  allDigits s = true -> allDigits (pretty_N_go x s) = true.
Proof.
  revert s. induction (N.lt_wf_0 x) as [x _ IH]. intros s Hs.
  assert (x = 0 \/ 0 < x)%N as [-> | Hpos] by lia.
  - now rewrite pretty_N_go_0.
  - rewrite pretty_N_go_step by exact Hpos. apply IH.
    + now apply N.div_lt.
    + cbn [allDigits]. rewrite Hs, andb_true_r.
      unfold pretty_N_char. repeat case_match; reflexivity.
Qed.

Lemma pretty_digits (z : Z) : 0 <= z -> allDigits (pretty z) = true.
Proof.
  intros Hz. destruct z as [|p|p]; [reflexivity | | lia].
  unfold pretty, pretty_Z, pretty, pretty_positive, pretty, pretty_N.
  case_decide; [reflexivity |]. now apply pretty_N_go_digits.
Qed.

(** Digits followed by something else: where the digits end is determined. *)
Lemma split_at_letter (s1 s2 r1 r2 : string) (c1 c2 : Ascii.ascii) :
  allDigits s1 = true -> allDigits s2 = true ->
  isDigit c1 = false -> isDigit c2 = false ->
  s1 +:+ String c1 r1 = s2 +:+ String c2 r2 ->
  s1 = s2 /\ c1 = c2 /\ r1 = r2.
Proof.
  revert s2. induction s1 as [|a s1 IH]; intros [|b s2] H1 H2 Hc1 Hc2 Heq.
  - injection Heq as -> ->. now repeat split.
  - rewrite append_cons in Heq. injection Heq as -> _.
    cbn [allDigits] in H2. rewrite Hc1 in H2. discriminate.
  - rewrite append_cons in Heq. injection Heq as -> _.
    cbn [allDigits] in H1. rewrite Hc2 in H1. discriminate.
  - rewrite !append_cons in Heq. injection Heq as -> Heq.
    cbn [allDigits] in H1, H2.
    apply andb_true_iff in H1 as (_ & H1). apply andb_true_iff in H2 as (_ & H2).
    destruct (IH s2 H1 H2 Hc1 Hc2 Heq) as (-> & -> & ->). now repeat split.
Qed.

(** The text of hours and minutes. *)
Lemma hours_minutes_inj (h1 m1 h2 m2 : Z) :
  0 <= h1 -> 0 <= m1 -> 0 <= h2 -> 0 <= m2 ->
  join " " [pretty h1 +:+ "h"; pretty m1 +:+ "m"]
  = join " " [pretty h2 +:+ "h"; pretty m2 +:+ "m"] ->
  h1 = h2 /\ m1 = m2.
Proof.
  intros Hh1 Hm1 Hh2 Hm2 Heq. cbn [join] in Heq.
  rewrite !append_assoc in Heq. rewrite !append_cons in Heq.
  apply split_at_letter in Heq as (Hh & _ & Heq);
    [| now apply pretty_digits | now apply pretty_digits | reflexivity | reflexivity].
  injection Heq as Heq.
  assert (pretty m1 +:+ "m" = pretty m2 +:+ "m") as Heq' by exact Heq.
  apply split_at_letter in Heq' as (Hm & _ & _);
    [| now apply pretty_digits | now apply pretty_digits | reflexivity | reflexivity].
  split; [exact (pretty_Z_inj _ _ Hh) | exact (pretty_Z_inj _ _ Hm)].
Qed.

(** X21.  The formatted uptime tells the uptime to the minute: two
    uptimes, in whole seconds, with the same text lie in the same
    minute. *)
Theorem uptimeFormatted_to_the_minute (u1 u2 : Z) :
  0 <= u1 -> 0 <= u2 ->
  uptimeFormatted u1 = uptimeFormatted u2 ->
  u1 / 60 = u2 / 60.
Proof.
  intros H1 H2 Heq. unfold uptimeFormatted, uptimeParts in Heq.
  rewrite !Z.rem_mod_nonneg in Heq by lia.
  set (d1 := u1 / 86400) in *. set (d2 := u2 / 86400) in *.
  set (h1 := u1 mod 86400 / 3600) in *. set (h2 := u2 mod 86400 / 3600) in *.
  set (m1 := u1 mod 3600 / 60) in *. set (m2 := u2 mod 3600 / 60) in *.
  assert (0 <= d1 /\ 0 <= d2 /\ 0 <= h1 /\ 0 <= h2 /\ 0 <= m1 /\ 0 <= m2)
    as (Hd1 & Hd2 & Hh1 & Hh2 & Hm1 & Hm2)
    by (unfold d1, d2, h1, h2, m1, m2; repeat split; Z.to_euclidean_division_equations; lia).
  assert (d1 = d2 /\ h1 = h2 /\ m1 = m2) as (Hd & Hh & Hm).
  { destruct (Z.ltb_spec 0 d1) as [Hp1 | Hz1]; destruct (Z.ltb_spec 0 d2) as [Hp2 | Hz2];
      cbn [app] in Heq.
    - change (join " " [?a; ?b; ?c]) with (a +:+ " " +:+ join " " [b; c]) in Heq.
      rewrite !append_assoc in Heq. rewrite !append_cons in Heq.
      apply split_at_letter in Heq as (Hd & _ & Heq);
        [| now apply pretty_digits | now apply pretty_digits | reflexivity | reflexivity].
      injection Heq as Heq.
      assert (join " " [pretty h1 +:+ "h"; pretty m1 +:+ "m"]
              = join " " [pretty h2 +:+ "h"; pretty m2 +:+ "m"]) as Heq'.
      { cbn [join]. exact Heq. }
      apply hours_minutes_inj in Heq' as (Hh & Hm); try assumption.
      split; [exact (pretty_Z_inj _ _ Hd) | now split].
    - exfalso.
      change (join " " [?a; ?b; ?c]) with (a +:+ " " +:+ join " " [b; c]) in Heq.
      cbn [join] in Heq.
      rewrite !append_assoc in Heq. rewrite !append_cons in Heq.
      apply split_at_letter in Heq as (_ & Hc & _);
        [| now apply pretty_digits | now apply pretty_digits | reflexivity | reflexivity].
      discriminate.
    - exfalso.
      change (join " " [?a; ?b; ?c]) with (a +:+ " " +:+ join " " [b; c]) in Heq.
      cbn [join] in Heq.
      rewrite !append_assoc in Heq. rewrite !append_cons in Heq.
      apply split_at_letter in Heq as (_ & Hc & _);
        [| now apply pretty_digits | now apply pretty_digits | reflexivity | reflexivity].
      discriminate.
    - apply hours_minutes_inj in Heq as (Hh & Hm); try assumption.
      split; [lia | now split]. }
  unfold d1, d2, h1, h2, m1, m2 in *.
  Z.to_euclidean_division_equations. lia.
Qed.

(** Two moments of the same minute, one day, one hour and one minute
    after the start. *)
Lemma uptimeFormatted_to_the_minute_witness :
  uptimeFormatted 90061 = "1d 1h 1m" /\ 90061 / 60 = 90119 / 60.
Proof.
  split; [vm_compute; reflexivity |].
  apply (uptimeFormatted_to_the_minute 90061 90119); [lia | lia |].
  vm_compute. reflexivity.
Defined.

End UptimeFacts.
